(** * rir: the filesystem-event dispatcher of [main.go]

    A shallow embedding of [watch], [retest], [do] and [reload] from
    [main.go], together with the parts of Go's [path/filepath],
    [unicode/utf8], [os/exec] and [fsnotify] packages that decide their
    behaviour on a Unix target.

    Go strings are byte sequences: they are modelled by [string], one
    [ascii] per byte. *)

From Stdlib Require Import String Ascii List ZArith NArith Bool Arith Lia.
Import ListNotations.
Open Scope string_scope.

(** ** Byte strings *)

(** [s[n:]] *)
Fixpoint drop (n : nat) (s : string) : string :=
  match n, s with
  | O, _ => s
  | S _, "" => ""
  | S n', String _ t => drop n' t
  end.

(** [s[:n]] *)
Fixpoint take (n : nat) (s : string) : string :=
  match n, s with
  | O, _ => ""
  | S _, "" => ""
  | S n', String c t => String c (take n' t)
  end.

Definition is_empty (s : string) : bool :=
  match s with "" => true | _ => false end.

(** [len(s) > 0 && s[0] == c] *)
Definition starts_with (c : ascii) (s : string) : bool :=
  match s with
  | "" => false
  | String c0 _ => Ascii.eqb c0 c
  end.

(** Go's [error] values that can arise in the modelled code. *)
Inductive error : Type :=
| ErrBadPattern
| ExitError (code : Z)
| StartError (why : string)
| WatcherError (why : string)
| Errorf (prefix : string) (wrapped : error).

(** ** unicode/utf8 *)
Module utf8.

Definition RuneError : N := 65533.

(** The information of the [first] table: what a leading byte announces. *)
Inductive First : Type :=
| ASCII
| Invalid
| Multi (size : nat) (lo hi : N).

Definition first (b : N) : First :=
  if (b <? 128)%N then ASCII
  else if (b <? 194)%N then Invalid
  else if (b <? 224)%N then Multi 2 128 191
  else if (b =? 224)%N then Multi 3 160 191
  else if (b <? 237)%N then Multi 3 128 191
  else if (b =? 237)%N then Multi 3 128 159
  else if (b <? 240)%N then Multi 3 128 191
  else if (b =? 240)%N then Multi 4 144 191
  else if (b <? 244)%N then Multi 4 128 191
  else if (b =? 244)%N then Multi 4 128 143
  else Invalid.

Definition locb : N := 128.
Definition hicb : N := 191.
Definition maskx : N := 63.

Definition outside (lo hi b : N) : bool := ((b <? lo) || (hi <? b))%N.

Definition DecodeRuneInString (s : string) : N * nat :=
  match s with
  | "" => (RuneError, 0)
  | String c0 t0 =>
    let s0 := N_of_ascii c0 in
    match first s0 with
    | ASCII => (s0, 1)
    | Invalid => (RuneError, 1)
    | Multi sz lo hi =>
      if (String.length s <? sz)%nat then (RuneError, 1) else
      match t0 with
      | "" => (RuneError, 1)
      | String c1 t1 =>
        let s1 := N_of_ascii c1 in
        if outside lo hi s1 then (RuneError, 1) else
        if (sz <=? 2)%nat then
          (N.lor (N.shiftl (N.land s0 31) 6) (N.land s1 maskx), 2)
        else
        match t1 with
        | "" => (RuneError, 1)
        | String c2 t2 =>
          let s2 := N_of_ascii c2 in
          if outside locb hicb s2 then (RuneError, 1) else
          if (sz <=? 3)%nat then
            (N.lor (N.lor (N.shiftl (N.land s0 15) 12)
                          (N.shiftl (N.land s1 maskx) 6))
                   (N.land s2 maskx), 3)
          else
          match t2 with
          | "" => (RuneError, 1)
          | String c3 _ =>
            let s3 := N_of_ascii c3 in
            if outside locb hicb s3 then (RuneError, 1) else
            (N.lor (N.lor (N.lor (N.shiftl (N.land s0 7) 18)
                                 (N.shiftl (N.land s1 maskx) 12))
                          (N.shiftl (N.land s2 maskx) 6))
                   (N.land s3 maskx), 4)
          end
        end
      end
    end
  end.

End utf8.

(** ** path/filepath (Unix)

    [Match] is the one of Go 1.16 and later, which goes on checking the
    pattern after the match has failed, so as to report a malformed
    pattern. *)
Module filepath.

Definition Separator : ascii := "/"%char.

Definition IsPathSeparator (c : ascii) : bool := Ascii.eqb c Separator.

(** [strings.Contains(name, string(Separator))] *)
Fixpoint contains_sep (name : string) : bool :=
  match name with
  | "" => false
  | String c t => IsPathSeparator c || contains_sep t
  end.

(** *** Match *)

(** The leading loop of [scanChunk]: drop the stars, remember one was seen. *)
Fixpoint strip_stars (pattern : string) (star : bool) : bool * string :=
  match pattern with
  | String c rest =>
    if Ascii.eqb c "*" then strip_stars rest true else (star, pattern)
  | "" => (star, pattern)
  end.

(** The [Scan] loop of [scanChunk]: the index [i] at which it stops. *)
Fixpoint scan (pattern : string) (inrange : bool) : nat :=
  match pattern with
  | "" => 0
  | String c rest =>
    if Ascii.eqb c "\" then
      match rest with
      | "" => 1
      | String _ rest' => 2 + scan rest' inrange
      end
    else if Ascii.eqb c "[" then 1 + scan rest true
    else if Ascii.eqb c "]" then 1 + scan rest false
    else if Ascii.eqb c "*" then
      if inrange then 1 + scan rest inrange else 0
    else 1 + scan rest inrange
  end.

Definition scanChunk (pattern : string) : bool * string * string :=
  let '(star, pattern) := strip_stars pattern false in
  let i := scan pattern false in
  (star, take i pattern, drop i pattern).

(** [getEsc]: a possibly escaped character of a character class.  The
    results are named in Go, so an early error returns rune 0 and the
    empty string. *)
Definition getEsc (chunk : string) : N * string * option error :=
  match chunk with
  | "" => (0%N, "", Some ErrBadPattern)
  | String c rest =>
    if Ascii.eqb c "-" || Ascii.eqb c "]" then (0%N, "", Some ErrBadPattern)
    else
      let chunk := if Ascii.eqb c "\" then rest else chunk in
      if Ascii.eqb c "\" && is_empty chunk then (0%N, "", Some ErrBadPattern)
      else
        let '(r, n) := utf8.DecodeRuneInString chunk in
        let err := if (r =? utf8.RuneError)%N && (n =? 1)%nat
                   then Some ErrBadPattern else None in
        let nchunk := drop n chunk in
        let err := if is_empty nchunk then Some ErrBadPattern else err in
        (r, nchunk, err)
  end.

(** The range loop of a character class in [matchChunk].  [None] only
    when the fuel runs out; an error makes [matchChunk] return
    [("", false, err)]. *)
Fixpoint class_ranges (fuel : nat) (chunk : string) (r : N)
         (mtch : bool) (nrange : nat)
  : option (string * bool * option error) :=
  match fuel with
  | O => None
  | S fuel' =>
    if starts_with "]" chunk && (0 <? nrange)%nat
    then Some (drop 1 chunk, mtch, None)
    else
      let '(lo, chunk1, err) := getEsc chunk in
      match err with
      | Some e => Some ("", false, Some e)
      | None =>
        if starts_with "-" chunk1 then
          let '(hi, chunk2, err) := getEsc (drop 1 chunk1) in
          match err with
          | Some e => Some ("", false, Some e)
          | None =>
            class_ranges fuel' chunk2 r
                         (mtch || ((lo <=? r) && (r <=? hi))%N) (S nrange)
          end
        else
          class_ranges fuel' chunk1 r
                       (mtch || ((lo <=? r) && (r <=? lo))%N) (S nrange)
      end
  end.

(** The literal step (the [default] case of the switch). *)
Definition literal_step (c : ascii) (s : string) (failed : bool)
  : string * bool :=
  if failed then (s, failed) else
    match s with
    | "" => (s, true)
    | String c0 t => (t, negb (Ascii.eqb c c0))
    end.

(** [matchChunk]: does [chunk] match a prefix of [s]?  Result
    [(rest, ok, err)]; [None] only when the fuel runs out. *)
Fixpoint matchChunk_loop (fuel : nat) (chunk s : string) (failed : bool)
  : option (string * bool * option error) :=
  match fuel with
  | O => None
  | S fuel' =>
    match chunk with
    | "" => Some (if failed then ("", false, None) else (s, true, None))
    | String c rest =>
      let failed := failed || is_empty s in
      if Ascii.eqb c "[" then
        let '(r, s1) :=
          if failed then (0%N, s)
          else let '(r, n) := utf8.DecodeRuneInString s in (r, drop n s) in
        let '(negated, chunk1) :=
          if starts_with "^" rest then (true, drop 1 rest)
          else (false, rest) in
        match class_ranges (S (String.length chunk1)) chunk1 r false 0 with
        | None => None
        | Some (_, _, Some e) => Some ("", false, Some e)
        | Some (chunk2, mtch, None) =>
          matchChunk_loop fuel' chunk2 s1
                          (failed || Bool.eqb mtch negated)
        end
      else if Ascii.eqb c "?" then
        let '(s1, failed1) :=
          if failed then (s, failed)
          else
            let sep := match s with
                       | String c0 _ => IsPathSeparator c0
                       | "" => false
                       end in
            let '(_, n) := utf8.DecodeRuneInString s in
            (drop n s, sep) in
        matchChunk_loop fuel' rest s1 failed1
      else if Ascii.eqb c "\" then
        match rest with
        | "" => Some ("", false, Some ErrBadPattern)
        | String c' rest' =>
          let '(s1, failed1) := literal_step c' s failed in
          matchChunk_loop fuel' rest' s1 failed1
        end
      else
        let '(s1, failed1) := literal_step c s failed in
        matchChunk_loop fuel' rest s1 failed1
    end
  end.

Definition matchChunk (chunk s : string)
  : option (string * bool * option error) :=
  matchChunk_loop (S (String.length chunk)) chunk s false.

(** The result of the inner loop of [Match] that skips [i+1] bytes of
    [name] for a chunk preceded by a star. *)
Inductive Skip : Type :=
| SkipFound (t : string)      (* continue Pattern with name = t *)
| SkipError (e : error)       (* return false, err *)
| SkipNone                    (* the loop ends: return false, nil *)
| SkipFuel.

Fixpoint skip_loop (chunk name : string) (last : bool) : Skip :=
  match name with
  | "" => SkipNone
  | String c rest =>
    if IsPathSeparator c then SkipNone
    else
      match matchChunk chunk rest with
      | None => SkipFuel
      | Some (t, true, _) =>
        if last && negb (is_empty t) then skip_loop chunk rest last
        else SkipFound t
      | Some (_, false, Some e) => SkipError e
      | Some (_, false, None) => skip_loop chunk rest last
      end
  end.

(** The [Pattern] loop of [Match]; [None] only when the fuel runs out. *)
Fixpoint Match_loop (fuel : nat) (pattern name : string)
  : option (bool * option error) :=
  match fuel with
  | O => None
  | S fuel' =>
    if is_empty pattern then Some (is_empty name, None)
    else
      let '(star, chunk, pattern) := scanChunk pattern in
      if star && is_empty chunk then Some (negb (contains_sep name), None)
      else
        match matchChunk chunk name with
        | None => None
        | Some (t, ok, err) =>
          if ok && (is_empty t || negb (is_empty pattern)) then
            Match_loop fuel' pattern t
          else
            match err with
            | Some e => Some (false, Some e)
            | None =>
              if star then
                match skip_loop chunk name (is_empty pattern) with
                | SkipFound t => Match_loop fuel' pattern t
                | SkipError e => Some (false, Some e)
                | SkipNone => Some (false, None)
                | SkipFuel => None
                end
              else Some (false, None)
            end
        end
  end.

(** [filepath.Match(pattern, name)]: [(matched, err)]. *)
Definition Match (pattern name : string) : bool * option error :=
  match Match_loop (S (String.length pattern)) pattern name with
  | Some r => r
  | None => (false, None)
  end.

(** *** Clean and Join *)

(** [lazybuf]: the written part [buf[:w]] of the output buffer, so that
    [out.w] is its length. *)
Definition lazybuf_append (out : string) (c : ascii) : string :=
  out ++ String c "".

Definition lazybuf_index (out : string) (i : nat) : ascii :=
  match String.get i out with
  | Some c => c
  | None => "000"%char
  end.

(** The backtracking [for] loop of the [..] case: the new [out.w],
    starting from [w]. *)
Fixpoint backtrack (out : string) (dotdot w : nat) : nat :=
  match w with
  | O => O
  | S w' =>
    if (dotdot <? w)%nat && negb (IsPathSeparator (lazybuf_index out w))
    then backtrack out dotdot w'
    else w
  end.

Definition at_element_end (rest : string) : bool :=
  match rest with
  | "" => true
  | String c _ => IsPathSeparator c
  end.

(** The main loop of [Clean] over [path[r:]].  [inelem] tells that the
    inner loop copying a real path element is running. *)
Fixpoint clean_loop (rest : string) (rooted inelem : bool)
         (out : string) (dotdot : nat) : string :=
  match rest with
  | "" => out
  | String c t =>
    if IsPathSeparator c then
      (* empty path element, or the end of the element being copied *)
      clean_loop t rooted false out dotdot
    else if inelem then
      clean_loop t rooted true (lazybuf_append out c) dotdot
    else if Ascii.eqb c "." && at_element_end t then
      (* . element *)
      clean_loop t rooted false out dotdot
    else
      (* real path element: add slash if needed, then copy it *)
      let real :=
        let w := String.length out in
        let out :=
          if (rooted && negb (w =? 1)%nat) || (negb rooted && negb (w =? 0)%nat)
          then lazybuf_append out Separator else out in
        clean_loop t rooted true (lazybuf_append out c) dotdot in
      match t with
      | "" => real
      | String c1 t' =>
        if Ascii.eqb c "." && Ascii.eqb c1 "." && at_element_end t' then
          (* .. element: remove to last separator *)
          let w := String.length out in
          if (dotdot <? w)%nat then
            (* can backtrack *)
            clean_loop t' rooted false
                       (take (backtrack out dotdot (w - 1)) out) dotdot
          else if negb rooted then
            (* cannot backtrack, but not rooted, so append .. element *)
            let out := if (0 <? w)%nat then lazybuf_append out Separator
                       else out in
            let out := lazybuf_append (lazybuf_append out ".") "." in
            clean_loop t' rooted false out (String.length out)
          else clean_loop t' rooted false out dotdot
        else real
      end
  end.

(** [filepath.Clean(path)] *)
Definition Clean (path : string) : string :=
  match path with
  | "" => "."
  | String c0 _ =>
    let rooted := IsPathSeparator c0 in
    let out :=
      if rooted then clean_loop (drop 1 path) rooted false "/" 1
      else clean_loop path rooted false "" 0 in
    if is_empty out then "." else out
  end.

(** [strings.Join(elems, string(Separator))] *)
Fixpoint strings_Join (elems : list string) : string :=
  match elems with
  | [] => ""
  | [e] => e
  | e :: rest => e ++ String Separator (strings_Join rest)
  end.

(** [filepath.Join(elem...)]: the elements from the first non-empty one
    on, joined and cleaned. *)
Fixpoint Join (elem : list string) : string :=
  match elem with
  | [] => ""
  | e :: rest =>
    if is_empty e then Join rest else Clean (strings_Join elem)
  end.

End filepath.

(** ** fsnotify *)
Module fsnotify.

(** [type Op uint32], a bit set: [Create Op = 1 << iota], [Write],
    [Remove], [Rename], [Chmod]. *)
Definition OpBits : Type := N.
Definition Create : OpBits := 1%N.
Definition Write : OpBits := 2%N.
Definition Remove : OpBits := 4%N.
Definition Rename : OpBits := 8%N.
Definition Chmod : OpBits := 16%N.

Record Event : Type := { Name : string; Op : OpBits }.

End fsnotify.

(** ** os/exec *)
Module exec.

(** How the child process of [cmd.Run] ends: it exits with a status, or
    it could not be started. *)
Inductive Outcome : Type :=
| Exited (code : Z)
| NotStarted (why : string).

(** The operating system as [cmd.Run] sees it: the outcome of running
    [name] with [args]. *)
Definition OS : Type := string -> list string -> Outcome.

(** [cmd.Run()]: nil exactly when the command ran and exited with 0. *)
Definition Run (os : OS) (name : string) (args : list string)
  : option error :=
  match os name args with
  | Exited 0 => None
  | Exited code => Some (ExitError code)
  | NotStarted why => Some (StartError why)
  end.

End exec.

(** ** zap *)
Module zap.

Inductive Level : Type := DebugLevel | InfoLevel | ErrorLevel.

Inductive Field : Type :=
| String (key val : string)
| Error (err : error)
| Any (key : string) (ev : fsnotify.Event).

Record Entry : Type :=
  { level : Level; message : string; fields : list Field }.

Definition is_error (e : Entry) : bool :=
  match level e with ErrorLevel => true | _ => false end.

End zap.

(** ** main.go *)

(** [Dir] configures a single watched directory. *)
Record Dir : Type :=
  { Path : string;
    TemplateFilePattern : string;
    TestFilePattern : string;
    ScreenshotFilePattern : string;
    TestCommand : list string }.

(** [Config] configures rir. *)
Record Config : Type :=
  { ListenAddr : string;
    Dirs : list Dir }.

(** The two function literals handed to [do] in [watch]:
    [func() error { return retest(logs, wdir) }] and
    [func() error { return reload(logs, wdir) }], with the directory they
    close over: the [wdir] of the iteration that made them (the loop
    variable is per iteration, as from Go 1.22). *)
Inductive Closure : Type :=
| RetestClosure (wdir : Dir)
| ReloadClosure (wdir : Dir).

(** A goroutine that was started and has not run yet: [go do(logs, m, f)]
    of [watch], and the [go func() {...}()] inside [do]. *)
Inductive Goroutine : Type :=
| GoDo (m : string) (f : Closure)
| GoFunc (m : string) (f : Closure).

(** What the functions act on: the records written to the logger, the
    number of [livereload.ForceRefresh] broadcasts, and the goroutines
    started and not yet run. *)
Record World : Type :=
  { logs : list zap.Entry;
    refreshes : nat;
    goroutines : list Goroutine }.

Definition log (w : World) (l : zap.Level) (m : string)
           (fs : list zap.Field) : World :=
  {| logs := logs w ++ [ {| zap.level := l; zap.message := m;
                            zap.fields := fs |} ];
     refreshes := refreshes w;
     goroutines := goroutines w |}.

(** The [go] statement. *)
Definition go (w : World) (g : Goroutine) : World :=
  {| logs := logs w;
     refreshes := refreshes w;
     goroutines := goroutines w ++ [g] |}.

(** A Go call either returns or panics. *)
Inductive Result (A : Type) : Type :=
| Return (a : A)
| Panic (why : string).
Arguments Return {A} a.
Arguments Panic {A} why.

(** [retest] runs the test command of [wdir].  Indexing
    [wdir.TestCommand[0]] panics on an empty slice. *)
Definition retest (os : exec.OS) (w : World) (wdir : Dir)
  : World * Result (option error) :=
  let w := log w zap.InfoLevel "retesting directory"
               [zap.String "dir" (Path wdir)] in
  match TestCommand wdir with
  | [] => (w, Panic "index out of range [0] with length 0")
  | name :: args =>
    match exec.Run os name args with
    | Some err => (w, Return (Some (Errorf "failed to run test command: " err)))
    | None => (w, Return None)
    end
  end.

(** [reload] refreshes the browser windows that have screenshots open. *)
Definition reload (w : World) (wdir : Dir) : World * Result (option error) :=
  let w := log w zap.InfoLevel "reloading screenshots"
               [zap.String "dir" (Path wdir)] in
  ({| logs := logs w; refreshes := S (refreshes w);
      goroutines := goroutines w |}, Return None).

(** Calling the function literal [f]. *)
Definition call (os : exec.OS) (w : World) (f : Closure)
  : World * Result (option error) :=
  match f with
  | RetestClosure wdir => retest os w wdir
  | ReloadClosure wdir => reload w wdir
  end.

(** The body of the goroutine of [do]: run [f], log any error. *)
Definition do_func (os : exec.OS) (w : World) (m : string) (f : Closure)
  : World * Result unit :=
  match call os w f with
  | (w, Return (Some err)) =>
    (log w zap.ErrorLevel m [zap.Error err], Return tt)
  | (w, Return None) => (w, Return tt)
  | (w, Panic why) => (w, Panic why)
  end.

(** [do] runs [f] async and logs any error. *)
Definition do (w : World) (m : string) (f : Closure) : World :=
  go w (GoFunc m f).

(** [filepath.Match(filepath.Join(wdir.Path, pattern), name)] *)
Definition glob (wdir : Dir) (pattern name : string) : bool * option error :=
  filepath.Match (filepath.Join [Path wdir; pattern]) name.

(** The [if]/[else if] chain of the body of the loop over [cfg.Dirs] in
    [watch]: the goroutines it starts for [wdir] and the changed path
    [name].  The error of [filepath.Match] is dropped ([m, _ := ...]). *)
Definition watch_dir (name : string) (wdir : Dir) : list Goroutine :=
  if fst (glob wdir (TestFilePattern wdir) name)
  then [GoDo "failed to test" (RetestClosure wdir)]
  else if fst (glob wdir (TemplateFilePattern wdir) name)
  then [GoDo "failed to test" (RetestClosure wdir)]
  else if fst (glob wdir (ScreenshotFilePattern wdir) name)
  then [GoDo "failed to reload" (ReloadClosure wdir)]
  else [].

(** The loop [for _, wdir := range cfg.Dirs]. *)
Definition watch_dirs (cfg : Config) (name : string) : list Goroutine :=
  flat_map (watch_dir name) (Dirs cfg).

(** What one [select] of [watch] receives. *)
Inductive Recv : Type :=
| EventRecv (ev : fsnotify.Event)   (* ev, ok := <-w.Events, ok *)
| EventsClosed                      (* ev, ok := <-w.Events, !ok *)
| ErrorRecv (err : error)           (* err, ok := <-w.Errors, ok *)
| ErrorsClosed.                     (* err, ok := <-w.Errors, !ok *)

Inductive Status : Type := Listening | Returned.

(** One iteration of the [for { select {...} }] loop of [watch]. *)
Definition watch_step (cfg : Config) (w : World) (r : Recv)
  : World * Status :=
  match r with
  | EventsClosed =>
    (log w zap.ErrorLevel "failed to read next event, stopping" [], Returned)
  | EventRecv ev =>
    if (fsnotify.Op ev =? fsnotify.Chmod)%N then (w, Listening)
    else
      let w := fold_left go (watch_dirs cfg (fsnotify.Name ev)) w in
      (log w zap.DebugLevel "fsnotify event" [zap.Any "ev" ev], Listening)
  | ErrorsClosed =>
    (log w zap.ErrorLevel "watcher error, stopping" [], Returned)
  | ErrorRecv err =>
    (log w zap.ErrorLevel "fsnotify error" [zap.Error err], Listening)
  end.

(** [watch] handles filesystem notifications: the loop run on the
    receptions [inputs], in the order the [select] takes them.  It is
    [Listening] when it blocks in [select] after the last of them. *)
Fixpoint watch (cfg : Config) (w : World) (inputs : list Recv)
  : World * Status :=
  match inputs with
  | [] => (w, Listening)
  | r :: rest =>
    match watch_step cfg w r with
    | (w, Returned) => (w, Returned)
    | (w, Listening) => watch cfg w rest
    end
  end.

(** *** The process: [watch] and the goroutines it starts *)

(** The kinds of action a started goroutine stands for. *)
Inductive Action : Type := Retest | Reload.

Definition action_of (g : Goroutine) : Action :=
  match g with
  | GoDo _ (RetestClosure _) | GoFunc _ (RetestClosure _) => Retest
  | GoDo _ (ReloadClosure _) | GoFunc _ (ReloadClosure _) => Reload
  end.

Definition dir_of (g : Goroutine) : Dir :=
  match g with
  | GoDo _ (RetestClosure d) | GoFunc _ (RetestClosure d) => d
  | GoDo _ (ReloadClosure d) | GoFunc _ (ReloadClosure d) => d
  end.

(** The actions started for [wdir] by a change of [name]. *)
Definition actions (name : string) (wdir : Dir) : list Action :=
  map action_of (watch_dir name wdir).

Record Process : Type :=
  { world : World;
    dispatcher : Status;          (* the goroutine running [watch] *)
    panicked : option string }.   (* an unrecovered panic ends the process *)

(** The scheduler lets [watch] take one reception, or runs the [n]-th
    pending goroutine to its end, on the operating system [os]. *)
Inductive Sched : Type :=
| Select (r : Recv)
| RunGoroutine (n : nat) (os : exec.OS).

Definition remove_nth {A : Type} (n : nat) (l : list A) : list A :=
  firstn n l ++ skipn (S n) l.

Definition run_goroutine (os : exec.OS) (w : World) (g : Goroutine)
  : World * Result unit :=
  match g with
  | GoDo m f => (do w m f, Return tt)
  | GoFunc m f => do_func os w m f
  end.

Definition process_step (cfg : Config) (p : Process) (s : Sched) : Process :=
  match panicked p with
  | Some _ => p
  | None =>
    match s with
    | Select r =>
      match dispatcher p with
      | Returned => p
      | Listening =>
        let '(w, st) := watch_step cfg (world p) r in
        {| world := w; dispatcher := st; panicked := None |}
      end
    | RunGoroutine n os =>
      match nth_error (goroutines (world p)) n with
      | None => p
      | Some g =>
        let w := {| logs := logs (world p);
                    refreshes := refreshes (world p);
                    goroutines := remove_nth n (goroutines (world p)) |} in
        match run_goroutine os w g with
        | (w, Return _) =>
          {| world := w; dispatcher := dispatcher p; panicked := None |}
        | (w, Panic why) =>
          {| world := w; dispatcher := dispatcher p; panicked := Some why |}
        end
      end
    end
  end.

Definition run_process (cfg : Config) (p : Process) (ss : list Sched)
  : Process :=
  fold_left (process_step cfg) ss p.

Definition error_count (w : World) : nat :=
  List.length (filter zap.is_error (logs w)).

(** ** Notions used in the statements *)

(** A directory whose test-file and screenshot patterns overlap. *)
Definition overlapping : Dir :=
  {| Path := "/proj";
     TemplateFilePattern := "*.gotmpl";
     TestFilePattern := "*_test.*";
     ScreenshotFilePattern := "*.jpeg";
     TestCommand := ["go"; "test"; "./..."] |}.

(** The directory of the example of the specification. *)
Definition proj : Dir :=
  {| Path := "/proj";
     TemplateFilePattern := "*.gotmpl";
     TestFilePattern := "*_test.go";
     ScreenshotFilePattern := "*.screenshot.jpeg";
     TestCommand := ["go"; "test"; "./..."] |}.

Definition proj_cfg : Config :=
  {| ListenAddr := "localhost:8080"; Dirs := [proj] |}.

Definition empty_world : World :=
  {| logs := []; refreshes := 0; goroutines := [] |}.

Definition is_closure (r : Recv) : bool :=
  match r with
  | EventsClosed | ErrorsClosed => true
  | EventRecv _ | ErrorRecv _ => false
  end.

(** The goroutines pending after [watch] has handled the event [ev]. *)
Definition pending_after (cfg : Config) (w : World) (ev : fsnotify.Event)
  : list Goroutine :=
  goroutines (fst (watch_step cfg w (EventRecv ev))).

Definition change (name : string) (op : fsnotify.OpBits) : fsnotify.Event :=
  {| fsnotify.Name := name; fsnotify.Op := op |}.

Definition returns_error (r : Result (option error)) : bool :=
  match r with
  | Return (Some _) => true
  | _ => false
  end.

(** The configured test command of [wdir] fails on [os]: it cannot be
    started or it exits with a status that is not 0. *)
Definition command_fails (os : exec.OS) (wdir : Dir) : Prop :=
  match TestCommand wdir with
  | [] => False
  | name :: args => os name args <> exec.Exited 0
  end.

Definition no_command : Dir :=
  {| Path := "/proj";
     TemplateFilePattern := "*.gotmpl";
     TestFilePattern := "*_test.go";
     ScreenshotFilePattern := "*.screenshot.jpeg";
     TestCommand := [] |}.

Definition failing_os : exec.OS := fun _ _ => exec.Exited 1.

Definition proj_retest_pending : Process :=
  {| world := {| logs := []; refreshes := 0;
                 goroutines := [GoFunc "failed to test" (RetestClosure proj)] |};
     dispatcher := Listening;
     panicked := None |}.

(** The result of a match as the chain of [watch] uses it, with a match
    that reported an error counted as no match. *)
Definition matched (r : bool * option error) : bool :=
  match snd r with
  | Some _ => false
  | None => fst r
  end.

(** A directory whose three patterns are malformed. *)
Definition malformed : Dir :=
  {| Path := "/proj";
     TemplateFilePattern := "[";
     TestFilePattern := "[a-";
     ScreenshotFilePattern := "*.jp[e";
     TestCommand := ["go"; "test"; "./..."] |}.

(** A byte that [Match] compares literally: none of [*], [?], [[] and the
    escape character. *)
Definition literal_byte (c : ascii) : bool :=
  negb (Ascii.eqb c "*") && negb (Ascii.eqb c "?")
  && negb (Ascii.eqb c "[") && negb (Ascii.eqb c "\").

Fixpoint is_literal (p : string) : bool :=
  match p with
  | "" => true
  | String c t => literal_byte c && is_literal t
  end.

(** [s] without its prefix [p], when it has that prefix. *)
Fixpoint strip_prefix (p s : string) : option string :=
  match p, s with
  | "", _ => Some s
  | String _ _, "" => None
  | String c p', String c0 s' =>
    if Ascii.eqb c c0 then strip_prefix p' s' else None
  end.

(** [name] is a run of bytes without separator followed by [suf]. *)
Fixpoint star_then (suf name : string) : bool :=
  String.eqb name suf
  || match name with
     | "" => false
     | String c rest =>
       if filepath.IsPathSeparator c then false else star_then suf rest
     end.

(** The bytes skipped by the star are at least one, none a separator. *)
Definition skip_then (suf name : string) : bool :=
  match name with
  | "" => false
  | String c rest =>
    if filepath.IsPathSeparator c then false else star_then suf rest
  end.

(** ** Notions used for the dispatcher as a whole *)

(** One of the three patterns of [wdir] matches [name]. *)
Definition triggers (name : string) (wdir : Dir) : bool :=
  fst (glob wdir (TestFilePattern wdir) name)
  || fst (glob wdir (TemplateFilePattern wdir) name)
  || fst (glob wdir (ScreenshotFilePattern wdir) name).

(** A goroutine as [watch] starts them: [go do(...)] with the message
    that goes with the action. *)
Definition started_by_watch (cfg : Config) (g : Goroutine) : Prop :=
  In (dir_of g) (Dirs cfg) /\
  (g = GoDo "failed to test" (RetestClosure (dir_of g))
   \/ g = GoDo "failed to reload" (ReloadClosure (dir_of g))).

Definition is_change (r : Recv) : bool :=
  match r with
  | EventRecv ev => negb (fsnotify.Op ev =? fsnotify.Chmod)%N
  | _ => false
  end.

Definition is_error_value (r : Recv) : bool :=
  match r with
  | ErrorRecv _ => true
  | _ => false
  end.

Definition is_debug (e : zap.Entry) : bool :=
  match zap.level e with zap.DebugLevel => true | _ => false end.

Definition debug_count (w : World) : nat :=
  List.length (filter is_debug (logs w)).

Definition succeeding_os : exec.OS := fun _ _ => exec.Exited 0.

Definition no_command_pending : Process :=
  {| world := {| logs := []; refreshes := 0;
                 goroutines :=
                   [GoFunc "failed to test" (RetestClosure no_command)] |};
     dispatcher := Listening;
     panicked := None |}.

Definition proj_reload_pending : Process :=
  {| world := {| logs := []; refreshes := 0;
                 goroutines :=
                   [GoDo "failed to reload" (ReloadClosure proj)] |};
     dispatcher := Listening;
     panicked := None |}.

(** ** Notions used for [filepath.Join] *)

(** A path element that [Clean] keeps: not empty, without separator, and
    neither [.] nor [..]. *)
Definition good_seg (s : string) : bool :=
  negb (is_empty s) && negb (filepath.contains_sep s)
  && negb (String.eqb s ".") && negb (String.eqb s "..").

(** The absolute path [/s1/s2/.../sn] of the elements [segs]. *)
Fixpoint abs_path (segs : list string) : string :=
  match segs with
  | [] => ""
  | s :: rest => String "/" (s ++ abs_path rest)
  end.

(** ** strconv (64-bit [int]) *)
Module strconv.

Inductive Err : Type := ErrSyntax | ErrRange.

(** [*NumError] *)
Record NumError : Type :=
  { Func : string; Num : string; Cause : Err }.

Definition syntaxError (fn str : string) : NumError :=
  {| Func := fn; Num := str; Cause := ErrSyntax |}.

Definition rangeError (fn str : string) : NumError :=
  {| Func := fn; Num := str; Cause := ErrRange |}.

Definition byte (c : ascii) : Z := Z.of_N (N_of_ascii c).

Definition is_sign (c : ascii) : bool := Ascii.eqb c "-" || Ascii.eqb c "+".

(** The loop of the fast path of [Atoi]: [ch -= '0'] on a byte, and a
    syntax error ([None]) when [ch > 9]. *)
Fixpoint fast_digits (s : string) (n : Z) : option Z :=
  match s with
  | "" => Some n
  | String ch t =>
    let ch := ((byte ch - 48) mod 256)%Z in
    if (9 <? ch)%Z then None else fast_digits t (n * 10 + ch)%Z
  end.

Definition maxUint64 : Z := (2 ^ 64 - 1)%Z.

(** The loop of [ParseUint(s, 10, 0)] on an unsigned 64-bit [n]. *)
Fixpoint ParseUint_loop (s : string) (n : Z) : Z * option Err :=
  match s with
  | "" => (n, None)
  | String c t =>
    if ((48 <=? byte c) && (byte c <=? 57))%Z then
      let d := (byte c - 48)%Z in
      if (maxUint64 / 10 + 1 <=? n)%Z then (maxUint64, Some ErrRange)
      else
        let n1 := (n * 10 + d)%Z in
        if (maxUint64 <? n1)%Z then (maxUint64, Some ErrRange)
        else ParseUint_loop t n1
    else (0%Z, Some ErrSyntax)
  end.

Definition ParseUint (s : string) : Z * option Err :=
  if is_empty s then (0%Z, Some ErrSyntax) else ParseUint_loop s 0%Z.

(** [ParseInt(s, 10, 0)] *)
Definition ParseInt (s : string) : Z * option Err :=
  match s with
  | "" => (0%Z, Some ErrSyntax)
  | String c t =>
    let neg := Ascii.eqb c "-" in
    let s1 := if is_sign c then t else s in
    let '(un, err) := ParseUint s1 in
    match err with
    | Some ErrSyntax => (0%Z, Some ErrSyntax)
    | _ =>
      let cutoff := (2 ^ 63)%Z in
      if negb neg && (cutoff <=? un)%Z then ((cutoff - 1)%Z, Some ErrRange)
      else if neg && (cutoff <? un)%Z then ((- cutoff)%Z, Some ErrRange)
      else ((if neg then - un else un)%Z, None)
    end
  end.

(** [strconv.Atoi(s)] *)
Definition Atoi (s : string) : Z * option NumError :=
  let sLen := String.length s in
  if (0 <? sLen)%nat && (sLen <? 19)%nat then
    (* fast path for small integers that fit int type *)
    match s with
    | "" => (0%Z, Some (syntaxError "Atoi" s))
    | String c t =>
      let digits := if is_sign c then t else s in
      if is_sign c && is_empty digits then (0%Z, Some (syntaxError "Atoi" s))
      else
        match fast_digits digits 0%Z with
        | None => (0%Z, Some (syntaxError "Atoi" s))
        | Some n => ((if Ascii.eqb c "-" then - n else n)%Z, None)
        end
    end
  else
    (* slow path for invalid, big, or underscored integers *)
    match ParseInt s with
    | (i64, Some e) => (i64, Some {| Func := "Atoi"; Num := s; Cause := e |})
    | (i64, None) => (i64, None)
    end.

End strconv.

(** ** encoding/base64 *)
Module base64.

(** [base64.CorruptInputError]: the offset of the illegal input byte. *)
Definition CorruptInputError : Type := Z.

(** [base64.URLEncoding.DecodeString] as the handlers see it: the bytes
    decoded and the error. *)
Definition Decoder : Type := string -> string * option CorruptInputError.

End base64.

(** ** The handler of the screenshot image *)

(** The errors [screenshot] returns, [fmt.Errorf] with [%w]. *)
Inductive HandlerError : Type :=
| ErrScreenshotName (prefix : string) (err : base64.CorruptInputError)
| ErrDirIdx (prefix : string) (err : strconv.NumError).

(** What the handler wrote to the response. *)
Inductive Response : Type :=
| NoResponse
| ServeFile (name : string).

(** [screenshot] renders the screenshot image: the function it returns,
    on the URL parameters [screenshot] and [dirIdx] of the request.
    Indexing [cfg.Dirs[dirIdx]] panics out of range. *)
Definition screenshot (DecodeString : base64.Decoder) (cfg : Config)
           (screenshotNameB64 dirIdxParam : string)
  : Response * Result (option HandlerError) :=
  let '(screenshotName, err) := DecodeString screenshotNameB64 in
  match err with
  | Some e =>
    (NoResponse,
     Return (Some (ErrScreenshotName
                     "failed to de decode base64 encoded screenshot name: "
                     e)))
  | None =>
    let '(dirIdx, err) := strconv.Atoi dirIdxParam in
    match err with
    | Some e =>
      (NoResponse, Return (Some (ErrDirIdx "failed to decode dir idx: " e)))
    | None =>
      if (dirIdx <? 0)%Z then
        (NoResponse, Panic "index out of range")
      else
        match nth_error (Dirs cfg) (Z.to_nat dirIdx) with
        | None => (NoResponse, Panic "index out of range")
        | Some wdir =>
          (ServeFile (filepath.Join [Path wdir; screenshotName]),
           Return None)
        end
    end
  end.

(** A directory whose test-file pattern is not set. *)
Definition unset_test_pattern : Dir :=
  {| Path := abs_path ["proj"];
     TemplateFilePattern := "*.gotmpl";
     TestFilePattern := "";
     ScreenshotFilePattern := "*.screenshot.jpeg";
     TestCommand := ["go"; "test"; "./..."] |}.

(** A decoder that is given the name [../secret.txt]. *)
Definition traversal_decoder : base64.Decoder :=
  fun _ => ("../secret.txt", None).



(** A process in which [watch] listens and nothing is pending. *)
Definition proj_listening : Process :=
  {| world := empty_world; dispatcher := Listening; panicked := None |}.

(** ** The glob language *)








(** * Properties *)

(** ** Lists of goroutines and log records *)

Lemma goroutines_fold_go (gs : list Goroutine) (w : World) :
  goroutines (fold_left go gs w) = (goroutines w ++ gs)%list.
Proof.
  revert w; induction gs as [|g gs IH]; intros w; simpl.
  - now rewrite app_nil_r.
  - rewrite IH; simpl. now rewrite <- app_assoc.
Qed.

Lemma logs_fold_go (gs : list Goroutine) (w : World) :
  logs (fold_left go gs w) = logs w.
Proof.
  revert w; induction gs as [|g gs IH]; intros w; simpl; [easy|].
  now rewrite IH.
Qed.

Lemma refreshes_fold_go (gs : list Goroutine) (w : World) :
  refreshes (fold_left go gs w) = refreshes w.
Proof.
  revert w; induction gs as [|g gs IH]; intros w; simpl; [easy|].
  now rewrite IH.
Qed.

Lemma error_count_log (w : World) (l : zap.Level) (m : string)
      (fs : list zap.Field) :
  error_count (log w l m fs) =
  error_count w + match l with zap.ErrorLevel => 1 | _ => 0 end.
Proof.
  unfold error_count, log; simpl.
  rewrite filter_app, length_app; simpl.
  destruct l; reflexivity.
Qed.

(** ** The chain of [watch] *)

(** The chain, read as a function of the three match results. *)
Lemma watch_dir_cases (name : string) (wdir : Dir) :
  actions name wdir =
  if fst (glob wdir (TestFilePattern wdir) name)
     || fst (glob wdir (TemplateFilePattern wdir) name)
  then [Retest]
  else if fst (glob wdir (ScreenshotFilePattern wdir) name)
  then [Reload]
  else [].
Proof.
  unfold actions, watch_dir.
  destruct (fst (glob wdir (TestFilePattern wdir) name)); [reflexivity|].
  destruct (fst (glob wdir (TemplateFilePattern wdir) name)); [reflexivity|].
  destruct (fst (glob wdir (ScreenshotFilePattern wdir) name)); reflexivity.
Qed.

Lemma watch_dir_dir (name : string) (wdir : Dir) :
  Forall (fun g => dir_of g = wdir) (watch_dir name wdir).
Proof.
  unfold watch_dir.
  repeat match goal with
         | |- context [if ?b then _ else _] => destruct b
         end; repeat constructor.
Qed.

(** C1, as stated, fails: a path that matches both a code pattern and the
    screenshot pattern does not produce both Retest and Reload.  For the
    directory [overlapping] and the path [/proj/a_test.jpeg] only Retest is
    produced. *)
Lemma C1_overlap_counterexample :
  ~ (forall (D : Dir) (P : string),
        fst (glob D (TestFilePattern D) P)
        || fst (glob D (TemplateFilePattern D) P) = true ->
        fst (glob D (ScreenshotFilePattern D) P) = true ->
        In Retest (actions P D) /\ In Reload (actions P D)).
Proof.
  intros H.
  destruct (H overlapping "/proj/a_test.jpeg") as [_ HR];
    [vm_compute; reflexivity | vm_compute; reflexivity |].
  vm_compute in HR. destruct HR as [HR | []]. discriminate HR.
Qed.

(** C1 (amended): for every directory D and changed path P the chain is a
    first-match chain over the three patterns.  If P matches the test-file
    or the template-file pattern, exactly one Retest is produced, whether
    or not the screenshot pattern matches too; if P matches only the
    screenshot pattern, exactly one Reload is produced; if P matches no
    pattern nothing is produced.  Every goroutine started is for D. *)
Theorem C1_first_match_classification (D : Dir) (P : string) :
  (fst (glob D (TestFilePattern D) P)
   || fst (glob D (TemplateFilePattern D) P) = true ->
   actions P D = [Retest]) /\
  (fst (glob D (TestFilePattern D) P) = false ->
   fst (glob D (TemplateFilePattern D) P) = false ->
   fst (glob D (ScreenshotFilePattern D) P) = true ->
   actions P D = [Reload]) /\
  (fst (glob D (TestFilePattern D) P) = false ->
   fst (glob D (TemplateFilePattern D) P) = false ->
   fst (glob D (ScreenshotFilePattern D) P) = false ->
   actions P D = []) /\
  Forall (fun g => dir_of g = D) (watch_dir P D).
Proof.
  rewrite watch_dir_cases.
  repeat split.
  - intros ->. reflexivity.
  - intros -> -> ->. reflexivity.
  - intros -> -> ->. reflexivity.
  - apply watch_dir_dir.
Qed.

Lemma C1_first_match_classification_witness :
  actions "/proj/a_test.jpeg" overlapping = [Retest].
Proof.
  apply (C1_first_match_classification overlapping "/proj/a_test.jpeg").
  vm_compute. reflexivity.
Defined.

(** ** Chmod events *)

(** C2: a ChangeEvent whose operation is Chmod is discarded before any
    pattern is matched: the iteration of [watch] leaves the world as it is
    (no goroutine is started for any configured directory, nothing is
    logged) and keeps listening, and so does the whole process. *)
Theorem C2_chmod_discarded (cfg : Config) (w : World) (ev : fsnotify.Event) :
  fsnotify.Op ev = fsnotify.Chmod ->
  watch_step cfg w (EventRecv ev) = (w, Listening) /\
  (forall rest, watch cfg w (EventRecv ev :: rest) = watch cfg w rest) /\
  (forall p, process_step cfg p (Select (EventRecv ev)) = p).
Proof.
  intros Hop.
  assert (Hstep : watch_step cfg w (EventRecv ev) = (w, Listening)).
  { unfold watch_step. rewrite Hop. reflexivity. }
  split; [exact Hstep|]. split.
  - intros rest. simpl watch. unfold watch_step. rewrite Hop. reflexivity.
  - intros [pw pd pp]. unfold process_step; simpl.
    destruct pp; [reflexivity|]. destruct pd; [|reflexivity].
    rewrite Hop. reflexivity.
Qed.

Lemma C2_chmod_discarded_witness :
  watch_step proj_cfg empty_world
             (EventRecv {| fsnotify.Name := "/proj/foo_test.go";
                           fsnotify.Op := fsnotify.Chmod |})
  = (empty_world, Listening).
Proof.
  apply (C2_chmod_discarded proj_cfg empty_world
           {| fsnotify.Name := "/proj/foo_test.go";
              fsnotify.Op := fsnotify.Chmod |}).
  reflexivity.
Defined.

(** ** Termination of the loop *)

Lemma watch_step_status (cfg : Config) (w : World) (r : Recv) :
  snd (watch_step cfg w r) = if is_closure r then Returned else Listening.
Proof.
  destruct r as [ev| |err|]; simpl; try reflexivity.
  destruct (fsnotify.Op ev =? fsnotify.Chmod)%N; reflexivity.
Qed.

Lemma watch_returns_iff (cfg : Config) (inputs : list Recv) (w : World) :
  snd (watch cfg w inputs) = Returned <-> existsb is_closure inputs = true.
Proof.
  revert w; induction inputs as [|r rest IH]; intros w; simpl.
  - split; discriminate.
  - pose proof (watch_step_status cfg w r) as Hs.
    destruct (watch_step cfg w r) as [w' st]; simpl in Hs; subst st.
    destruct (is_closure r); simpl.
    + split; reflexivity.
    + apply IH.
Qed.

(** C3, as stated, fails: the loop also returns when the error stream is
    closed, although the event stream was never closed. *)
Lemma C3_errors_closed_counterexample :
  ~ (forall (cfg : Config) (w : World) (inputs : list Recv),
        snd (watch cfg w inputs) = Returned -> In EventsClosed inputs).
Proof.
  intros H.
  destruct (H proj_cfg empty_world [ErrorsClosed] eq_refl) as [E | []].
  discriminate E.
Qed.

(** C3 (amended): the loop of [watch] returns exactly when one of its two
    input streams is closed, the event stream or the error stream; an
    error value received on the error stream is only logged, once, at
    error level, and the loop continues with the next reception. *)
Theorem C3_watch_returns_on_closure (cfg : Config) (w : World) :
  (forall inputs,
      snd (watch cfg w inputs) = Returned <->
      In EventsClosed inputs \/ In ErrorsClosed inputs) /\
  (forall err rest,
      watch cfg w (ErrorRecv err :: rest) =
      watch cfg (log w zap.ErrorLevel "fsnotify error" [zap.Error err]) rest).
Proof.
  split.
  - intros inputs. rewrite watch_returns_iff, existsb_exists. split.
    + intros [r [Hin Hc]]. destruct r; try discriminate Hc; auto.
    + intros [H | H]; [exists EventsClosed | exists ErrorsClosed]; auto.
  - intros err rest. reflexivity.
Qed.

(** ** The example of the specification *)

Lemma pending_after_change (cfg : Config) (w : World) (ev : fsnotify.Event) :
  fsnotify.Op ev <> fsnotify.Chmod ->
  pending_after cfg w ev =
  (goroutines w ++ watch_dirs cfg (fsnotify.Name ev))%list.
Proof.
  intros Hop. apply N.eqb_neq in Hop.
  unfold pending_after, watch_step. rewrite Hop.
  cbn [fst log goroutines]. apply goroutines_fold_go.
Qed.

Lemma watch_dirs_foo_test :
  watch_dirs proj_cfg "/proj/foo_test.go" =
  [GoDo "failed to test" (RetestClosure proj)].
Proof. vm_compute. reflexivity. Qed.

Lemma watch_dirs_screenshot :
  watch_dirs proj_cfg "/proj/profile.screenshot.jpeg" =
  [GoDo "failed to reload" (ReloadClosure proj)].
Proof. vm_compute. reflexivity. Qed.

Lemma watch_dirs_readme :
  watch_dirs proj_cfg "/proj/README.md" = [].
Proof. vm_compute. reflexivity. Qed.

(** C5: for the directory [/proj] with the patterns [*_test.go],
    [*.gotmpl] and [*.screenshot.jpeg], a change event that is not a Chmod
    starts exactly one goroutine for [/proj/foo_test.go], a Retest of that
    directory, and exactly one for [/proj/profile.screenshot.jpeg], a
    Reload of that directory; an event for [/proj/README.md] starts none. *)
Theorem C5_example (w : World) (op : fsnotify.OpBits) :
  op <> fsnotify.Chmod ->
  pending_after proj_cfg w (change "/proj/foo_test.go" op) =
    (goroutines w ++ [GoDo "failed to test" (RetestClosure proj)])%list /\
  pending_after proj_cfg w (change "/proj/profile.screenshot.jpeg" op) =
    (goroutines w ++ [GoDo "failed to reload" (ReloadClosure proj)])%list /\
  pending_after proj_cfg w (change "/proj/README.md" op) = goroutines w /\
  actions "/proj/foo_test.go" proj = [Retest] /\
  actions "/proj/profile.screenshot.jpeg" proj = [Reload] /\
  actions "/proj/README.md" proj = [].
Proof.
  intros Hop.
  rewrite !pending_after_change by exact Hop.
  cbn [change fsnotify.Name].
  rewrite watch_dirs_foo_test, watch_dirs_screenshot, watch_dirs_readme.
  rewrite app_nil_r.
  repeat split; vm_compute; reflexivity.
Qed.

Lemma C5_example_witness :
  fsnotify.Write <> fsnotify.Chmod /\
  actions "/proj/foo_test.go" proj = [Retest].
Proof.
  assert (H : fsnotify.Write <> fsnotify.Chmod) by discriminate.
  split; [exact H|].
  exact (proj1 (proj2 (proj2 (proj2 (C5_example empty_world fsnotify.Write H))))).
Defined.

(** ** reload *)

(** C7: [reload] never fails: for every directory and in every world it
    returns nil, and neither panics; run as the function handed to [do], it
    leaves no error record in the log. *)
Theorem C7_reload_never_fails (os : exec.OS) (w : World) (wdir : Dir) :
  snd (reload w wdir) = Return None /\
  snd (call os w (ReloadClosure wdir)) = Return None /\
  (forall m,
      snd (do_func os w m (ReloadClosure wdir)) = Return tt /\
      error_count (fst (do_func os w m (ReloadClosure wdir))) = error_count w).
Proof.
  repeat split.
  unfold do_func, call, reload; cbn [fst].
  unfold error_count; cbn [logs log].
  rewrite filter_app, length_app; simpl. lia.
Qed.

(** ** Determinism of the classification *)

Lemma watch_snoc (cfg : Config) (inputs : list Recv) (r : Recv) (w : World) :
  snd (watch cfg w inputs) = Listening ->
  watch cfg w (inputs ++ [r]) = watch_step cfg (fst (watch cfg w inputs)) r.
Proof.
  revert w; induction inputs as [|r0 rest IH]; intros w; simpl.
  - intros _. destruct (watch_step cfg w r) as [w' [|]]; reflexivity.
  - destruct (watch_step cfg w r0) as [w' [|]]; simpl.
    + apply IH.
    + discriminate.
Qed.

(** C8: the classification of a path for a directory depends on the
    directory record and the path only.  Whatever was received before
    ([hist1], [hist2]) and whatever the worlds are ([w1], [w2]), handling a
    change of the same path starts the same goroutines,
    [watch_dirs cfg P], after those already pending; the only other
    effect of the iteration is its debug record: the count of refreshes is
    unchanged and no record but that one is written. *)
Theorem C8_classification_deterministic
        (cfg : Config) (w1 w2 : World) (hist1 hist2 : list Recv)
        (ev : fsnotify.Event) :
  fsnotify.Op ev <> fsnotify.Chmod ->
  snd (watch cfg w1 hist1) = Listening ->
  snd (watch cfg w2 hist2) = Listening ->
  let before1 := fst (watch cfg w1 hist1) in
  let before2 := fst (watch cfg w2 hist2) in
  let after1 := fst (watch cfg w1 (hist1 ++ [EventRecv ev])) in
  let after2 := fst (watch cfg w2 (hist2 ++ [EventRecv ev])) in
  goroutines after1 =
    (goroutines before1 ++ watch_dirs cfg (fsnotify.Name ev))%list /\
  goroutines after2 =
    (goroutines before2 ++ watch_dirs cfg (fsnotify.Name ev))%list /\
  refreshes after1 = refreshes before1 /\
  refreshes after2 = refreshes before2 /\
  logs after1 =
    (logs before1 ++ [ {| zap.level := zap.DebugLevel;
                          zap.message := "fsnotify event";
                          zap.fields := [zap.Any "ev" ev] |} ])%list /\
  logs after2 =
    (logs before2 ++ [ {| zap.level := zap.DebugLevel;
                          zap.message := "fsnotify event";
                          zap.fields := [zap.Any "ev" ev] |} ])%list.
Proof.
  intros Hop H1 H2. cbv zeta.
  rewrite !watch_snoc by assumption.
  apply N.eqb_neq in Hop.
  unfold watch_step. rewrite Hop.
  cbn [fst log goroutines refreshes logs].
  rewrite !goroutines_fold_go, !refreshes_fold_go, !logs_fold_go.
  repeat split.
Qed.

Lemma C8_classification_deterministic_witness :
  goroutines (fst (watch proj_cfg empty_world
                         ([ErrorRecv (WatcherError "overflow")]
                            ++ [EventRecv (change "/proj/foo_test.go"
                                                  fsnotify.Write)]))) =
  (goroutines (fst (watch proj_cfg empty_world
                          [ErrorRecv (WatcherError "overflow")]))
     ++ watch_dirs proj_cfg "/proj/foo_test.go")%list.
Proof.
  assert (H : fsnotify.Write <> fsnotify.Chmod) by discriminate.
  exact (proj1 (C8_classification_deterministic
                  proj_cfg empty_world empty_world
                  [ErrorRecv (WatcherError "overflow")] []
                  (change "/proj/foo_test.go" fsnotify.Write)
                  H eq_refl eq_refl)).
Defined.

(** ** retest *)

(** C10: [retest] reads [wdir.TestCommand[0]] unconditionally, so a
    non-empty [TestCommand] is its precondition: [retest] panics (index
    out of range, not a returned error) exactly when [TestCommand] is
    empty, and returns otherwise. *)
Theorem C10_retest_needs_command (os : exec.OS) (w : World) (wdir : Dir) :
  (TestCommand wdir = [] <->
   snd (retest os w wdir) = Panic "index out of range [0] with length 0") /\
  (TestCommand wdir <> [] <-> exists r, snd (retest os w wdir) = Return r) /\
  (TestCommand wdir = [] -> returns_error (snd (retest os w wdir)) = false).
Proof.
  unfold retest.
  destruct (TestCommand wdir) as [|name args]; cbn [snd].
  - split; [split; reflexivity|]. split; [|reflexivity].
    split; [intros H; now elim H | intros [r H]; discriminate H].
  - assert (Hne : name :: args <> []) by discriminate.
    destruct (exec.Run os name args); cbn [snd].
    + split; [split; discriminate|]. split; [|discriminate].
      split; [intros _; eexists; reflexivity | intros _; exact Hne].
    + split; [split; discriminate|]. split; [|discriminate].
      split; [intros _; eexists; reflexivity | intros _; exact Hne].
Qed.

Lemma C10_retest_needs_command_witness :
  snd (retest (fun _ _ => exec.Exited 0) empty_world no_command) =
  Panic "index out of range [0] with length 0".
Proof.
  apply (C10_retest_needs_command (fun _ _ => exec.Exited 0)
                                  empty_world no_command).
  reflexivity.
Defined.

Lemma retest_error_iff (os : exec.OS) (w : World) (wdir : Dir) :
  returns_error (snd (retest os w wdir)) = true <-> command_fails os wdir.
Proof.
  unfold retest, command_fails, exec.Run.
  destruct (TestCommand wdir) as [|name args]; cbn [snd returns_error].
  - split; [discriminate | intros []].
  - destruct (os name args) as [[|c|c]|why]; cbn [snd returns_error];
      split; try discriminate; try reflexivity; intros H;
        try reflexivity; now elim H.
Qed.

Lemma do_func_retest_fails (os : exec.OS) (w : World) (m : string)
      (wdir : Dir) :
  command_fails os wdir ->
  exists err,
    do_func os w m (RetestClosure wdir) =
    (log (log w zap.InfoLevel "retesting directory"
              [zap.String "dir" (Path wdir)])
         zap.ErrorLevel m
         [zap.Error (Errorf "failed to run test command: " err)],
     Return tt).
Proof.
  unfold command_fails, do_func, call, retest, exec.Run.
  destruct (TestCommand wdir) as [|name args]; [intros []|].
  destruct (os name args) as [[|c|c]|why]; intros H;
    try (now elim H); eexists; reflexivity.
Qed.

(** ** Malformed patterns *)

(** [filepath.Match] never reports a match together with an error. *)
Lemma Match_loop_error (fuel : nat) :
  forall pattern name b e,
    filepath.Match_loop fuel pattern name = Some (b, Some e) -> b = false.
Proof.
  induction fuel as [|fuel IH]; intros pattern name b e; simpl.
  - discriminate.
  - destruct (is_empty pattern); [discriminate|].
    destruct (filepath.scanChunk pattern) as [[star chunk] rest].
    destruct (star && is_empty chunk); [discriminate|].
    destruct (filepath.matchChunk chunk name) as [[[t ok] err]|];
      [|discriminate].
    destruct (ok && (is_empty t || negb (is_empty rest))); [apply IH|].
    destruct err as [e'|]; [intros H; now inversion H|].
    destruct star; [|discriminate].
    destruct (filepath.skip_loop chunk name (is_empty rest));
      try discriminate; [apply IH | intros H; now inversion H].
Qed.

Lemma Match_error (pattern name : string) (e : error) :
  snd (filepath.Match pattern name) = Some e ->
  fst (filepath.Match pattern name) = false.
Proof.
  unfold filepath.Match.
  destruct (filepath.Match_loop _ pattern name) as [[b [e'|]]|] eqn:E;
    cbn [fst snd]; try discriminate.
  intros _. exact (Match_loop_error _ _ _ _ _ E).
Qed.

Lemma matched_glob (wdir : Dir) (pattern name : string) :
  matched (glob wdir pattern name) = fst (glob wdir pattern name).
Proof.
  unfold matched, glob.
  destruct (snd (filepath.Match _ name)) as [e|] eqn:E; [|reflexivity].
  symmetry. exact (Match_error _ _ _ E).
Qed.

(** C9: when [filepath.Match] reports an error for a pattern of a
    directory, the pattern counts as not matching: the chain starts what
    the other patterns start (nothing when all three are malformed), and
    the iteration of [watch] writes no error record, only its debug
    record, and keeps listening. *)
Theorem C9_bad_pattern_ignored
        (cfg : Config) (w : World) (ev : fsnotify.Event) (D : Dir) :
  let P := fsnotify.Name ev in
  (forall pattern e,
      snd (glob D pattern P) = Some e -> fst (glob D pattern P) = false) /\
  watch_dir P D =
    (if matched (glob D (TestFilePattern D) P)
     then [GoDo "failed to test" (RetestClosure D)]
     else if matched (glob D (TemplateFilePattern D) P)
     then [GoDo "failed to test" (RetestClosure D)]
     else if matched (glob D (ScreenshotFilePattern D) P)
     then [GoDo "failed to reload" (ReloadClosure D)]
     else []) /\
  (snd (glob D (TestFilePattern D) P) <> None ->
   snd (glob D (TemplateFilePattern D) P) <> None ->
   snd (glob D (ScreenshotFilePattern D) P) <> None ->
   watch_dir P D = []) /\
  error_count (fst (watch_step cfg w (EventRecv ev))) = error_count w /\
  snd (watch_step cfg w (EventRecv ev)) = Listening /\
  (fsnotify.Op ev <> fsnotify.Chmod ->
   logs (fst (watch_step cfg w (EventRecv ev))) =
   (logs w ++ [ {| zap.level := zap.DebugLevel;
                   zap.message := "fsnotify event";
                   zap.fields := [zap.Any "ev" ev] |} ])%list).
Proof.
  intros P.
  split; [intros pattern e; apply Match_error|].
  split; [rewrite !matched_glob; reflexivity|].
  split.
  { intros H1 H2 H3. unfold watch_dir.
    destruct (snd (glob D (TestFilePattern D) P)) as [e1|] eqn:E1;
      [|now elim H1].
    destruct (snd (glob D (TemplateFilePattern D) P)) as [e2|] eqn:E2;
      [|now elim H2].
    destruct (snd (glob D (ScreenshotFilePattern D) P)) as [e3|] eqn:E3;
      [|now elim H3].
    unfold glob in *.
    rewrite (Match_error _ _ _ E1), (Match_error _ _ _ E2),
      (Match_error _ _ _ E3). reflexivity. }
  unfold watch_step.
  destruct (fsnotify.Op ev =? fsnotify.Chmod)%N eqn:Hop; cbn [fst snd].
  - repeat split. intros H. apply N.eqb_eq in Hop. now elim H.
  - rewrite error_count_log. unfold error_count.
    rewrite logs_fold_go. cbn [log logs]. rewrite logs_fold_go.
    repeat split. lia.
Qed.

Lemma C9_bad_pattern_ignored_witness :
  snd (glob malformed (TestFilePattern malformed) "/proj/a.jpeg")
    = Some ErrBadPattern /\
  snd (glob malformed (TemplateFilePattern malformed) "/proj/a.jpeg")
    = Some ErrBadPattern /\
  snd (glob malformed (ScreenshotFilePattern malformed) "/proj/a.jpeg")
    = Some ErrBadPattern /\
  watch_dir "/proj/a.jpeg" malformed = [].
Proof.
  split; [vm_compute; reflexivity|].
  split; [vm_compute; reflexivity|].
  split; [vm_compute; reflexivity|].
  refine (proj1 (proj2 (proj2 (C9_bad_pattern_ignored
                                 proj_cfg empty_world
                                 (change "/proj/a.jpeg" fsnotify.Write)
                                 malformed))) _ _ _);
    vm_compute; discriminate.
Defined.

(** ** Glob semantics of [filepath.Match] *)

Lemma literal_byte_inv (c : ascii) :
  literal_byte c = true ->
  Ascii.eqb c "*" = false /\ Ascii.eqb c "?" = false /\
  Ascii.eqb c "[" = false /\ Ascii.eqb c "\" = false.
Proof.
  unfold literal_byte.
  destruct (Ascii.eqb c "*"), (Ascii.eqb c "?"), (Ascii.eqb c "["),
    (Ascii.eqb c "\"); simpl; intros H; try discriminate H; auto.
Qed.

Lemma take_app (p q : string) : take (String.length p) (p ++ q) = p.
Proof. induction p as [|c p IH]; simpl; [now destruct q | now rewrite IH]. Qed.

Lemma drop_app (p q : string) : drop (String.length p) (p ++ q) = q.
Proof. induction p as [|c p IH]; simpl; [reflexivity | exact IH]. Qed.

Lemma append_empty_r (p : string) : p ++ "" = p.
Proof. induction p as [|c p IH]; simpl; [reflexivity | now rewrite IH]. Qed.


Lemma append_length (p q : string) :
  String.length (p ++ q) = String.length p + String.length q.
Proof. induction p as [|c p IH]; simpl; [reflexivity | now rewrite IH]. Qed.

Lemma append_inv_head (p q r : string) : p ++ q = p ++ r -> q = r.
Proof.
  induction p as [|c p IH]; simpl; [easy|]. intros H. inversion H. auto.
Qed.

Lemma contains_sep_app (p q : string) :
  filepath.contains_sep (p ++ q) =
  filepath.contains_sep p || filepath.contains_sep q.
Proof.
  induction p as [|c p IH]; simpl; [reflexivity|].
  now rewrite IH, orb_assoc.
Qed.

Lemma strip_prefix_spec (p s t : string) :
  strip_prefix p s = Some t <-> s = p ++ t.
Proof.
  revert s; induction p as [|c p IH]; intros s; simpl.
  - split; [intros H; now inversion H | intros ->; reflexivity].
  - destruct s as [|c0 s]; [split; discriminate|].
    destruct (Ascii.eqb_spec c c0) as [->|Hne].
    + rewrite IH. split; [intros ->; reflexivity | intros H; now inversion H].
    + split; [discriminate | intros H; inversion H; now elim Hne].
Qed.

Lemma star_then_spec (suf name : string) :
  star_then suf name = true <->
  exists mid, name = mid ++ suf /\ filepath.contains_sep mid = false.
Proof.
  induction name as [|c rest IH].
  - cbn [star_then]. rewrite orb_false_r. split.
    + intros H. apply String.eqb_eq in H. subst suf. exists ""; auto.
    + intros [mid [H _]]. destruct mid; simpl in H; [|discriminate H].
      subst suf. reflexivity.
  - cbn [star_then]. rewrite orb_true_iff. split.
    + intros [H | H].
      * apply String.eqb_eq in H. exists "". simpl; auto.
      * destruct (filepath.IsPathSeparator c) eqn:Hc; [discriminate|].
        apply IH in H. destruct H as [mid [-> Hm]].
        exists (String c mid). simpl. rewrite Hc, Hm. auto.
    + intros [mid [H Hm]]. destruct mid as [|c0 mid].
      * left. simpl in H. subst suf. apply String.eqb_refl.
      * right. simpl in H. inversion H; subst.
        simpl in Hm. apply orb_false_elim in Hm. destruct Hm as [Hc Hm].
        rewrite Hc. apply IH. exists mid; auto.
Qed.

Lemma star_then_empty (name : string) :
  star_then "" name = negb (filepath.contains_sep name).
Proof.
  induction name as [|c rest IH]; [reflexivity|].
  cbn [star_then filepath.contains_sep].
  replace (String.eqb (String c rest) "") with false by reflexivity.
  rewrite IH. simpl. now destruct (filepath.IsPathSeparator c).
Qed.

(** *** Scanning literal chunks *)

Lemma scan_literal (p q : string) :
  is_literal p = true ->
  filepath.scan (p ++ q) false = String.length p + filepath.scan q false.
Proof.
  induction p as [|c p IH]; [reflexivity|].
  cbn [is_literal]. intros H. apply andb_prop in H. destruct H as [Hc Hp].
  destruct (literal_byte_inv c Hc) as (Hs & _ & Hb & He).
  cbn [append filepath.scan]. rewrite He, Hb, Hs.
  destruct (Ascii.eqb c "]"); rewrite (IH Hp); reflexivity.
Qed.

Lemma strip_stars_literal (p q : string) (star : bool) :
  is_literal p = true -> p <> "" ->
  filepath.strip_stars (p ++ q) star = (star, p ++ q).
Proof.
  destruct p as [|c p]; [easy|]. cbn [is_literal]. intros H _.
  apply andb_prop in H. destruct H as [Hc _].
  destruct (literal_byte_inv c Hc) as (Hs & _).
  cbn [append filepath.strip_stars]. now rewrite Hs.
Qed.

Lemma scanChunk_literal_star (p suf : string) :
  is_literal p = true -> p <> "" ->
  filepath.scanChunk (p ++ "*" ++ suf) = (false, p, "*" ++ suf).
Proof.
  intros Hp Hne. unfold filepath.scanChunk.
  rewrite strip_stars_literal by assumption.
  rewrite scan_literal by assumption.
  replace (filepath.scan ("*" ++ suf) false) with 0 by reflexivity.
  rewrite Nat.add_0_r, take_app, drop_app. reflexivity.
Qed.

Lemma scan_literal_all (p : string) :
  is_literal p = true -> filepath.scan p false = String.length p.
Proof.
  intros Hp. rewrite <- (append_empty_r p) at 1.
  rewrite scan_literal by assumption. cbn [filepath.scan]. lia.
Qed.

Lemma take_all (p : string) : take (String.length p) p = p.
Proof. induction p as [|c p IH]; simpl; [reflexivity | now rewrite IH]. Qed.

Lemma drop_all (p : string) : drop (String.length p) p = "".
Proof. induction p as [|c p IH]; simpl; [reflexivity | exact IH]. Qed.

Lemma scanChunk_literal (p : string) :
  is_literal p = true -> p <> "" ->
  filepath.scanChunk p = (false, p, "").
Proof.
  intros Hp Hne. unfold filepath.scanChunk.
  assert (E : filepath.strip_stars p false = (false, p)).
  { rewrite <- (append_empty_r p). now apply strip_stars_literal. }
  rewrite E, scan_literal_all, take_all, drop_all by assumption.
  reflexivity.
Qed.

Lemma scanChunk_star_literal (suf : string) :
  is_literal suf = true ->
  filepath.scanChunk ("*" ++ suf) = (true, suf, "").
Proof.
  intros Hs. unfold filepath.scanChunk.
  assert (E : filepath.strip_stars ("*" ++ suf) false = (true, suf)).
  { cbn. destruct suf as [|c suf]; [reflexivity|].
    rewrite <- (append_empty_r (String c suf)).
    apply strip_stars_literal; [exact Hs | discriminate]. }
  rewrite E, scan_literal_all, take_all, drop_all by assumption.
  reflexivity.
Qed.

(** *** Matching literal chunks *)

Lemma matchChunk_loop_failed (p : string) :
  is_literal p = true ->
  forall fuel s,
    String.length p < fuel ->
    filepath.matchChunk_loop fuel p s true = Some ("", false, None).
Proof.
  induction p as [|c p IH]; intros Hp fuel s Hf.
  - destruct fuel as [|fuel]; [inversion Hf | reflexivity].
  - cbn [is_literal] in Hp. apply andb_prop in Hp. destruct Hp as [Hc Hp].
    destruct (literal_byte_inv c Hc) as (_ & Hq & Hb & He).
    destruct fuel as [|fuel]; [inversion Hf|].
    cbn [filepath.matchChunk_loop orb]. rewrite Hb, Hq, He.
    cbn [filepath.literal_step]. apply IH; [exact Hp|].
    simpl in Hf. lia.
Qed.

Lemma matchChunk_loop_literal (p : string) :
  is_literal p = true ->
  forall fuel s,
    String.length p < fuel ->
    filepath.matchChunk_loop fuel p s false =
    Some (match strip_prefix p s with
          | Some t => (t, true, None)
          | None => ("", false, None)
          end).
Proof.
  induction p as [|c p IH]; intros Hp fuel s Hf.
  - destruct fuel as [|fuel]; [inversion Hf | reflexivity].
  - cbn [is_literal] in Hp. apply andb_prop in Hp. destruct Hp as [Hc Hp].
    destruct (literal_byte_inv c Hc) as (_ & Hq & Hb & He).
    destruct fuel as [|fuel]; [inversion Hf|].
    assert (Hf' : String.length p < fuel) by (simpl in Hf; lia).
    cbn [filepath.matchChunk_loop orb]. rewrite Hb, Hq, He.
    destruct s as [|c0 s]; cbn [is_empty filepath.literal_step strip_prefix].
    + now apply matchChunk_loop_failed.
    + destruct (Ascii.eqb c c0); cbn [negb].
      * now apply IH.
      * now apply matchChunk_loop_failed.
Qed.

Lemma matchChunk_literal (p s : string) :
  is_literal p = true ->
  filepath.matchChunk p s =
  Some (match strip_prefix p s with
        | Some t => (t, true, None)
        | None => ("", false, None)
        end).
Proof.
  intros Hp. unfold filepath.matchChunk.
  apply matchChunk_loop_literal; [exact Hp | lia].
Qed.

Lemma strip_prefix_all (p s : string) :
  strip_prefix p s = Some "" <-> s = p.
Proof. now rewrite strip_prefix_spec, append_empty_r. Qed.

Lemma strip_prefix_more (p s : string) (c : ascii) (t : string) :
  strip_prefix p s = Some (String c t) -> String.eqb s p = false.
Proof.
  intros H. apply strip_prefix_spec in H. apply String.eqb_neq.
  intros E. rewrite H in E.
  pose proof (f_equal String.length E) as L.
  rewrite append_length in L. simpl in L. lia.
Qed.

Lemma strip_prefix_none (p s : string) :
  strip_prefix p s = None -> String.eqb s p = false.
Proof.
  intros H. apply String.eqb_neq. intros E. subst s.
  assert (E : strip_prefix p p = Some "") by now apply strip_prefix_all.
  congruence.
Qed.

Lemma star_then_unfold (suf name : string) :
  star_then suf name = String.eqb name suf || skip_then suf name.
Proof. destruct name; reflexivity. Qed.

Lemma skip_loop_literal (suf : string) :
  is_literal suf = true ->
  forall name,
    filepath.skip_loop suf name true =
    if skip_then suf name then filepath.SkipFound "" else filepath.SkipNone.
Proof.
  intros Hs. induction name as [|c rest IH]; [reflexivity|].
  cbn [filepath.skip_loop skip_then].
  destruct (filepath.IsPathSeparator c); [reflexivity|].
  rewrite matchChunk_literal by exact Hs.
  rewrite star_then_unfold.
  destruct (strip_prefix suf rest) as [[|c0 t]|] eqn:E.
  - apply strip_prefix_all in E. subst rest.
    rewrite String.eqb_refl. reflexivity.
  - rewrite (strip_prefix_more _ _ _ _ E). cbn [andb negb is_empty orb].
    exact IH.
  - rewrite (strip_prefix_none _ _ E). cbn [orb]. exact IH.
Qed.

(** *** The pattern loop on [pre*suf] *)

Lemma Match_loop_empty (fuel : nat) (name : string) :
  filepath.Match_loop (S fuel) "" name = Some (is_empty name, None).
Proof. reflexivity. Qed.

Lemma Match_loop_star (suf : string) :
  is_literal suf = true ->
  forall fuel name,
    filepath.Match_loop (S (S fuel)) ("*" ++ suf) name =
    Some (star_then suf name, None).
Proof.
  intros Hs fuel name.
  change (filepath.Match_loop (S (S fuel)) ("*" ++ suf) name)
    with (let '(star, chunk, pattern) := filepath.scanChunk ("*" ++ suf) in
          if star && is_empty chunk
          then Some (negb (filepath.contains_sep name), None)
          else
            match filepath.matchChunk chunk name with
            | None => None
            | Some (t, ok, err) =>
              if ok && (is_empty t || negb (is_empty pattern)) then
                filepath.Match_loop (S fuel) pattern t
              else
                match err with
                | Some e => Some (false, Some e)
                | None =>
                  if star then
                    match filepath.skip_loop chunk name (is_empty pattern) with
                    | filepath.SkipFound t =>
                      filepath.Match_loop (S fuel) pattern t
                    | filepath.SkipError e => Some (false, Some e)
                    | filepath.SkipNone => Some (false, None)
                    | filepath.SkipFuel => None
                    end
                  else Some (false, None)
                end
            end).
  rewrite scanChunk_star_literal by exact Hs.
  destruct suf as [|c suf'] eqn:Esuf.
  - cbn [andb is_empty]. now rewrite star_then_empty.
  - rewrite <- Esuf in *. assert (Hne : is_empty suf = false) by now subst.
    rewrite Hne. cbn [andb].
    rewrite matchChunk_literal by exact Hs.
    rewrite star_then_unfold.
    cbn [is_empty negb orb].
    destruct (strip_prefix suf name) as [[|c0 t]|] eqn:E.
    + apply strip_prefix_all in E. subst name.
      rewrite String.eqb_refl. reflexivity.
    + rewrite (strip_prefix_more _ _ _ _ E). cbn [andb is_empty orb].
      rewrite skip_loop_literal by exact Hs.
      destruct (skip_then suf name); reflexivity.
    + rewrite (strip_prefix_none _ _ E). cbn [andb orb].
      rewrite skip_loop_literal by exact Hs.
      destruct (skip_then suf name); reflexivity.
Qed.

Lemma Match_loop_unfold (fuel : nat) (pattern name : string) :
  filepath.Match_loop (S fuel) pattern name =
  if is_empty pattern then Some (is_empty name, None)
  else
    let '(star, chunk, pattern) := filepath.scanChunk pattern in
    if star && is_empty chunk
    then Some (negb (filepath.contains_sep name), None)
    else
      match filepath.matchChunk chunk name with
      | None => None
      | Some (t, ok, err) =>
        if ok && (is_empty t || negb (is_empty pattern)) then
          filepath.Match_loop fuel pattern t
        else
          match err with
          | Some e => Some (false, Some e)
          | None =>
            if star then
              match filepath.skip_loop chunk name (is_empty pattern) with
              | filepath.SkipFound t => filepath.Match_loop fuel pattern t
              | filepath.SkipError e => Some (false, Some e)
              | filepath.SkipNone => Some (false, None)
              | filepath.SkipFuel => None
              end
            else Some (false, None)
          end
      end.
Proof. reflexivity. Qed.

Lemma is_empty_app_star (pre suf : string) :
  is_empty (pre ++ "*" ++ suf) = false.
Proof. destruct pre; reflexivity. Qed.

Lemma Match_loop_literal_star (pre suf : string) :
  is_literal pre = true -> is_literal suf = true ->
  forall fuel name,
    String.length pre < S fuel ->
    filepath.Match_loop (S (S fuel)) (pre ++ "*" ++ suf) name =
    Some (match strip_prefix pre name with
          | Some t => star_then suf t
          | None => false
          end, None).
Proof.
  intros Hp Hs fuel name Hf.
  destruct pre as [|c pre'] eqn:Epre.
  - cbn [strip_prefix]. apply (Match_loop_star suf Hs).
  - rewrite <- Epre in *.
    assert (Hne : pre <> "") by (subst pre; discriminate).
    destruct fuel as [|fuel]; [subst pre; simpl in Hf; lia|].
    rewrite Match_loop_unfold, is_empty_app_star.
    rewrite scanChunk_literal_star by assumption.
    cbn [andb]. rewrite matchChunk_literal by exact Hp.
    destruct (strip_prefix pre name) as [t|].
    + replace (is_empty ("*" ++ suf)) with false by reflexivity.
      cbn [negb andb]. rewrite orb_true_r.
      apply (Match_loop_star suf Hs).
    + reflexivity.
Qed.

(** The result of [Match] on a pattern [pre*suf] whose parts [pre] and
    [suf] are literal. *)
Lemma Match_literal_star (pre suf name : string) :
  is_literal pre = true -> is_literal suf = true ->
  filepath.Match (pre ++ "*" ++ suf) name =
  (match strip_prefix pre name with
   | Some t => star_then suf t
   | None => false
   end, None).
Proof.
  intros Hp Hs. unfold filepath.Match.
  assert (L : String.length (pre ++ "*" ++ suf) =
              S (String.length pre + String.length suf)).
  { rewrite append_length. simpl. lia. }
  rewrite L.
  rewrite Match_loop_literal_star by (assumption || lia).
  reflexivity.
Qed.

(** The result of [Match] on a literal pattern. *)
Lemma Match_literal (p name : string) :
  is_literal p = true ->
  filepath.Match p name = (String.eqb name p, None).
Proof.
  intros Hp. unfold filepath.Match.
  destruct p as [|c p'] eqn:Ep.
  - rewrite Match_loop_empty. now destruct name.
  - rewrite <- Ep in *.
    assert (Hne : p <> "") by (subst p; discriminate).
    assert (Hl : String.length p = S (String.length p'))
      by (subst p; reflexivity).
    rewrite Hl, Match_loop_unfold.
    replace (is_empty p) with false by (subst p; reflexivity).
    rewrite scanChunk_literal by assumption.
    cbn [andb]. rewrite matchChunk_literal by exact Hp.
    destruct (strip_prefix p name) as [[|c0 t]|] eqn:E.
    + apply strip_prefix_all in E. subst name.
      rewrite String.eqb_refl. reflexivity.
    + rewrite (strip_prefix_more _ _ _ _ E). reflexivity.
    + rewrite (strip_prefix_none _ _ E). reflexivity.
Qed.

(** ** [Match] always returns: the fuel of the loops is never used up *)

Lemma drop_length (n : nat) (s : string) :
  String.length (drop n s) = String.length s - n.
Proof.
  revert s; induction n as [|n IH]; intros [|c s]; simpl; auto.
Qed.


Lemma DecodeRuneInString_size (s : string) :
  s <> "" -> 1 <= snd (utf8.DecodeRuneInString s).
Proof.
  destruct s as [|c0 t0]; [easy|]. intros _.
  unfold utf8.DecodeRuneInString. cbv zeta.
  destruct (utf8.first (N_of_ascii c0)) as [| |sz lo hi]; [cbn [snd]; lia ..|].
  destruct (String.length (String c0 t0) <? sz)%nat; [cbn [snd]; lia|].
  destruct t0 as [|c1 t1]; [cbn [snd]; lia|].
  destruct (utf8.outside lo hi (N_of_ascii c1)); [cbn [snd]; lia|].
  destruct (sz <=? 2)%nat; [cbn [snd]; lia|].
  destruct t1 as [|c2 t2]; [cbn [snd]; lia|].
  destruct (utf8.outside utf8.locb utf8.hicb (N_of_ascii c2)); [cbn [snd]; lia|].
  destruct (sz <=? 3)%nat; [cbn [snd]; lia|].
  destruct t2 as [|c3 t3]; [cbn [snd]; lia|].
  destruct (utf8.outside utf8.locb utf8.hicb (N_of_ascii c3)); cbn [snd]; lia.
Qed.

Lemma getEsc_shorter (chunk : string) (r : N) (nchunk : string) :
  filepath.getEsc chunk = (r, nchunk, None) ->
  String.length nchunk < String.length chunk.
Proof.
  unfold filepath.getEsc.
  destruct chunk as [|c rest]; [discriminate|].
  destruct (Ascii.eqb c "-" || Ascii.eqb c "]"); [discriminate|].
  destruct (Ascii.eqb c "\").
  - cbn [andb].
    destruct (is_empty rest) eqn:Er; [discriminate|].
    destruct (utf8.DecodeRuneInString rest) as [r0 n].
    destruct (is_empty (drop n rest)); [discriminate|].
    intros H. inversion H; subst.
    rewrite drop_length. simpl. lia.
  - cbn [andb].
    pose proof (DecodeRuneInString_size (String c rest)) as Hn.
    destruct (utf8.DecodeRuneInString (String c rest)) as [r0 n].
    destruct (is_empty (drop n (String c rest))); [discriminate|].
    intros H. inversion H; subst.
    rewrite drop_length. cbn [snd] in Hn.
    assert (1 <= n) by (apply Hn; discriminate).
    cbn [String.length]. lia.
Qed.

Lemma class_ranges_total (fuel : nat) :
  forall chunk r mtch nrange,
    String.length chunk < fuel ->
    exists chunk2 m err,
      filepath.class_ranges fuel chunk r mtch nrange = Some (chunk2, m, err)
      /\ (err = None -> String.length chunk2 < String.length chunk).
Proof.
  induction fuel as [|fuel IH]; intros chunk r mtch nrange Hf; [lia|].
  cbn [filepath.class_ranges].
  destruct (starts_with "]" chunk && (0 <? nrange)%nat) eqn:Hb.
  - do 3 eexists. split; [reflexivity|]. intros _.
    destruct chunk; [discriminate Hb|]. simpl. lia.
  - destruct (filepath.getEsc chunk) as [[lo chunk1] [e|]] eqn:E1.
    + do 3 eexists. split; [reflexivity | discriminate].
    + apply getEsc_shorter in E1.
      destruct (starts_with "-" chunk1).
      * destruct (filepath.getEsc (drop 1 chunk1)) as [[hi chunk2] [e|]] eqn:E2.
        -- do 3 eexists. split; [reflexivity | discriminate].
        -- apply getEsc_shorter in E2. rewrite drop_length in E2.
           destruct (IH chunk2 r (mtch || ((lo <=? r) && (r <=? hi))%N)
                        (S nrange)) as (c3 & m & err & Hc & Hl); [lia|].
           exists c3, m, err. split; [exact Hc|]. intros He.
           specialize (Hl He). lia.
      * destruct (IH chunk1 r (mtch || ((lo <=? r) && (r <=? lo))%N)
                     (S nrange)) as (c3 & m & err & Hc & Hl); [lia|].
        exists c3, m, err. split; [exact Hc|]. intros He.
        specialize (Hl He). lia.
Qed.


Lemma matchChunk_loop_total (fuel : nat) :
  forall chunk s failed,
    String.length chunk < fuel ->
    filepath.matchChunk_loop fuel chunk s failed <> None.
Proof.
  induction fuel as [|fuel IH]; intros chunk s failed Hf; [lia|].
  cbn [filepath.matchChunk_loop].
  destruct chunk as [|c rest]; [discriminate|].
  simpl in Hf.
  destruct (Ascii.eqb c "[").
  - destruct (if failed || is_empty s then (0%N, s)
              else let '(r, n) := utf8.DecodeRuneInString s in (r, drop n s))
      as [r s1].
    assert (Hc : exists negated chunk1,
               (if starts_with "^" rest then (true, drop 1 rest)
                else (false, rest)) = (negated, chunk1)
               /\ String.length chunk1 <= String.length rest).
    { destruct (starts_with "^" rest); do 2 eexists;
        (split; [reflexivity|]); [rewrite drop_length|]; lia. }
    destruct Hc as (negated & chunk1 & -> & Hl).
    destruct (class_ranges_total (S (String.length chunk1)) chunk1 r false 0)
      as (chunk2 & m & err & -> & Hl2); [lia|].
    destruct err as [e|]; [discriminate|].
    apply IH. specialize (Hl2 eq_refl). lia.
  - destruct (Ascii.eqb c "?").
    + destruct (if failed || is_empty s then (s, failed || is_empty s)
                else _) as [s1 failed1].
      apply IH. lia.
    + destruct (Ascii.eqb c "\").
      * destruct rest as [|c' rest']; [discriminate|].
        destruct (filepath.literal_step c' s (failed || is_empty s)).
        apply IH. simpl in Hf. lia.
      * destruct (filepath.literal_step c s (failed || is_empty s)).
        apply IH. lia.
Qed.

Lemma matchChunk_total (chunk s : string) :
  filepath.matchChunk chunk s <> None.
Proof. apply matchChunk_loop_total. lia. Qed.

Lemma skip_loop_total (chunk name : string) (last : bool) :
  filepath.skip_loop chunk name last <> filepath.SkipFuel.
Proof.
  induction name as [|c rest IH]; cbn [filepath.skip_loop]; [discriminate|].
  destruct (filepath.IsPathSeparator c); [discriminate|].
  pose proof (matchChunk_total chunk rest) as Hm.
  destruct (filepath.matchChunk chunk rest) as [[[t [|]] [e|]]|];
    try discriminate; try exact IH; [| |now elim Hm];
    destruct (last && negb (is_empty t)); (exact IH || discriminate).
Qed.

Lemma strip_stars_length (pattern : string) (star : bool) :
  String.length (snd (filepath.strip_stars pattern star))
  <= String.length pattern.
Proof.
  revert star; induction pattern as [|c rest IH]; intros star; simpl; [lia|].
  destruct (Ascii.eqb c "*"); simpl; [|lia].
  specialize (IH true). lia.
Qed.

Lemma strip_stars_cases (pattern : string) :
  pattern <> "" ->
  (filepath.strip_stars pattern false = (false, pattern)
   /\ starts_with "*" pattern = false)
  \/ String.length (snd (filepath.strip_stars pattern false))
     < String.length pattern.
Proof.
  destruct pattern as [|c rest]; [easy|]. intros _. simpl.
  destruct (Ascii.eqb c "*"); [right | left; auto].
  pose proof (strip_stars_length rest true). lia.
Qed.

Lemma scan_positive (pattern : string) (inrange : bool) :
  pattern <> "" -> starts_with "*" pattern = false ->
  1 <= filepath.scan pattern inrange.
Proof.
  destruct pattern as [|c rest]; [easy|]. intros _. simpl. intros Hs.
  destruct (Ascii.eqb c "\"); [destruct rest; lia|].
  destruct (Ascii.eqb c "["); [lia|].
  destruct (Ascii.eqb c "]"); [lia|].
  rewrite Hs. lia.
Qed.

Lemma scanChunk_shorter (pattern : string) :
  pattern <> "" ->
  String.length (snd (filepath.scanChunk pattern)) < String.length pattern.
Proof.
  intros Hne. unfold filepath.scanChunk.
  destruct (strip_stars_cases pattern Hne) as [[E Hs] | Hl].
  - rewrite E. cbn [snd]. rewrite drop_length.
    pose proof (scan_positive pattern false Hne Hs).
    destruct pattern; [easy|]. cbn [String.length]. lia.
  - destruct (filepath.strip_stars pattern false) as [star p].
    cbn [snd] in *. rewrite drop_length. lia.
Qed.

Lemma Match_loop_total (fuel : nat) :
  forall pattern name,
    String.length pattern < fuel ->
    filepath.Match_loop fuel pattern name <> None.
Proof.
  induction fuel as [|fuel IH]; intros pattern name Hf; [lia|].
  rewrite Match_loop_unfold.
  destruct pattern as [|c rest] eqn:Ep; [discriminate|].
  rewrite <- Ep in *. replace (is_empty pattern) with false by now subst.
  assert (Hne : pattern <> "") by (subst; discriminate).
  pose proof (scanChunk_shorter pattern Hne) as Hl.
  destruct (filepath.scanChunk pattern) as [[star chunk] pattern'].
  cbn [snd] in Hl.
  destruct (star && is_empty chunk); [discriminate|].
  pose proof (matchChunk_total chunk name) as Hm.
  destruct (filepath.matchChunk chunk name) as [[[t ok] err]|];
    [|now elim Hm].
  destruct (ok && (is_empty t || negb (is_empty pattern')));
    [apply IH; lia|].
  destruct err; [discriminate|].
  destruct star; [|discriminate].
  pose proof (skip_loop_total chunk name (is_empty pattern')) as Hk.
  destruct (filepath.skip_loop chunk name (is_empty pattern'));
    try discriminate; [apply IH; lia | now elim Hk].
Qed.

(** [filepath.Match] is the result of its pattern loop. *)
Lemma Match_total (pattern name : string) :
  filepath.Match_loop (S (String.length pattern)) pattern name
  = Some (filepath.Match pattern name).
Proof.
  unfold filepath.Match.
  pose proof (Match_loop_total (S (String.length pattern)) pattern name) as H.
  destruct (filepath.Match_loop _ pattern name); [reflexivity|].
  elim H; [lia | reflexivity].
Qed.

(** * Further properties of the dispatcher *)

Lemma watch_dir_triggers (name : string) (wdir : Dir) :
  map dir_of (watch_dir name wdir) =
  if triggers name wdir then [wdir] else [].
Proof.
  unfold watch_dir, triggers.
  destruct (fst (glob wdir (TestFilePattern wdir) name)); [reflexivity|].
  destruct (fst (glob wdir (TemplateFilePattern wdir) name)); [reflexivity|].
  destruct (fst (glob wdir (ScreenshotFilePattern wdir) name)); reflexivity.
Qed.

(** X1: for one event, [watch] starts one goroutine for each configured
    directory that has a pattern matching the changed path, in the order
    of the configuration, and none for the others; so it never starts
    more goroutines than there are directories. *)
Theorem watch_dirs_one_per_matching_dir (cfg : Config) (name : string) :
  map dir_of (watch_dirs cfg name) = filter (triggers name) (Dirs cfg) /\
  List.length (watch_dirs cfg name) <= List.length (Dirs cfg).
Proof.
  unfold watch_dirs.
  assert (H : forall ds,
             map dir_of (flat_map (watch_dir name) ds) =
             filter (triggers name) ds).
  { induction ds as [|d ds IH]; [reflexivity|].
    cbn [flat_map filter]. rewrite map_app, IH, watch_dir_triggers.
    destruct (triggers name d); reflexivity. }
  split; [apply H|].
  rewrite <- (length_map dir_of), H. apply filter_length_le.
Qed.

Lemma watch_dir_started (cfg : Config) (name : string) (wdir : Dir) :
  In wdir (Dirs cfg) ->
  Forall (started_by_watch cfg) (watch_dir name wdir).
Proof.
  intros Hin. unfold watch_dir.
  repeat match goal with
         | |- context [if ?b then _ else _] => destruct b
         end;
    try (constructor; [|constructor]; split; [exact Hin|]; cbn [dir_of];
         (left; reflexivity) || (right; reflexivity)).
  constructor.
Qed.

Lemma watch_dirs_started (cfg : Config) (name : string) :
  Forall (started_by_watch cfg) (watch_dirs cfg name).
Proof.
  unfold watch_dirs. apply Forall_flat_map.
  apply Forall_forall. intros d Hd. now apply watch_dir_started.
Qed.

Lemma watch_step_grows (cfg : Config) (w : World) (r : Recv) :
  exists new,
    goroutines (fst (watch_step cfg w r)) = (goroutines w ++ new)%list /\
    Forall (started_by_watch cfg) new /\
    refreshes (fst (watch_step cfg w r)) = refreshes w.
Proof.
  destruct r as [ev| |err|]; cbn [watch_step].
  - destruct (fsnotify.Op ev =? fsnotify.Chmod)%N; cbn [fst].
    + exists []. rewrite app_nil_r. auto.
    + exists (watch_dirs cfg (fsnotify.Name ev)). cbn [log goroutines refreshes].
      rewrite goroutines_fold_go, refreshes_fold_go.
      auto using watch_dirs_started.
  - exists []. cbn. rewrite app_nil_r. auto.
  - exists []. cbn. rewrite app_nil_r. auto.
  - exists []. cbn. rewrite app_nil_r. auto.
Qed.

(** X2: whatever it receives, [watch] only adds to the pending
    goroutines, after those that were there; each one it adds is a
    [go do(...)] for a directory of the configuration, with the message
    ["failed to test"] for a retest and ["failed to reload"] for a reload;
    and [watch] itself never refreshes the browsers. *)
Theorem watch_only_starts_configured_actions
        (cfg : Config) (inputs : list Recv) (w : World) :
  exists new,
    goroutines (fst (watch cfg w inputs)) = (goroutines w ++ new)%list /\
    Forall (started_by_watch cfg) new /\
    refreshes (fst (watch cfg w inputs)) = refreshes w.
Proof.
  revert w; induction inputs as [|r rest IH]; intros w; cbn [watch].
  - exists []. rewrite app_nil_r. auto.
  - destruct (watch_step_grows cfg w r) as (new1 & Hg1 & Hf1 & Hr1).
    destruct (watch_step cfg w r) as [w1 [|]]; cbn [fst] in *.
    + destruct (IH w1) as (new2 & Hg2 & Hf2 & Hr2).
      exists (new1 ++ new2)%list. rewrite Hg2, Hg1, Hr2, Hr1, app_assoc.
      split; [reflexivity|]. split; [|reflexivity].
      apply Forall_app; auto.
    + exists new1. auto.
Qed.

(** X3: once [watch] has taken the closure of one of its streams it has
    returned: what the streams would deliver after that is not handled,
    and the record it leaves last is the error record of the stop. *)
Theorem watch_stops_at_closure
        (cfg : Config) (w : World) (before after : list Recv) (r : Recv) :
  is_closure r = true ->
  existsb is_closure before = false ->
  watch cfg w (before ++ r :: after) = watch cfg w (before ++ [r]) /\
  snd (watch cfg w (before ++ r :: after)) = Returned /\
  exists m,
    logs (fst (watch cfg w (before ++ r :: after))) =
    (logs (fst (watch cfg w before))
       ++ [ {| zap.level := zap.ErrorLevel; zap.message := m;
               zap.fields := [] |} ])%list /\
    (m = "failed to read next event, stopping"
     \/ m = "watcher error, stopping").
Proof.
  intros Hr. revert w; induction before as [|r0 rest IH]; intros w Hb.
  - cbn [app watch].
    destruct r; try discriminate Hr; cbn [watch_step fst snd log logs];
      (split; [reflexivity|]); (split; [reflexivity|]);
      eexists; split; [reflexivity | auto | reflexivity | auto].
  - cbn [existsb] in Hb. apply orb_false_elim in Hb. destruct Hb as [H0 Hb].
    cbn [app watch].
    pose proof (watch_step_status cfg w r0) as Hs. rewrite H0 in Hs.
    destruct (watch_step cfg w r0) as [w1 st]; cbn [snd] in Hs; subst st.
    apply IH. exact Hb.
Qed.

Lemma watch_stops_at_closure_witness :
  watch proj_cfg empty_world
        ([ErrorRecv (WatcherError "overflow")]
           ++ EventsClosed
           :: [EventRecv (change "/proj/foo_test.go" fsnotify.Write)])
  = watch proj_cfg empty_world
          ([ErrorRecv (WatcherError "overflow")] ++ [EventsClosed]).
Proof.
  exact (proj1 (watch_stops_at_closure
                  proj_cfg empty_world
                  [ErrorRecv (WatcherError "overflow")]
                  [EventRecv (change "/proj/foo_test.go" fsnotify.Write)]
                  EventsClosed eq_refl eq_refl)).
Defined.

Lemma debug_count_log (w : World) (l : zap.Level) (m : string)
      (fs : list zap.Field) :
  debug_count (log w l m fs) =
  debug_count w + match l with zap.DebugLevel => 1 | _ => 0 end.
Proof.
  unfold debug_count, log; simpl.
  rewrite filter_app, length_app; simpl.
  destruct l; reflexivity.
Qed.

(** X4: while no stream is closed, [watch] writes one debug record for
    each event that is not a Chmod and one error record for each value of
    the error stream, and nothing else at these levels: a Chmod event
    leaves no record at all. *)
Theorem watch_log_accounting (cfg : Config) (inputs : list Recv) (w : World) :
  existsb is_closure inputs = false ->
  debug_count (fst (watch cfg w inputs)) =
    debug_count w + List.length (filter is_change inputs) /\
  error_count (fst (watch cfg w inputs)) =
    error_count w + List.length (filter is_error_value inputs) /\
  List.length (logs (fst (watch cfg w inputs))) =
    List.length (logs w) + List.length (filter is_change inputs)
    + List.length (filter is_error_value inputs).
Proof.
  revert w; induction inputs as [|r rest IH]; intros w Hc.
  - cbn. lia.
  - cbn [existsb] in Hc. apply orb_false_elim in Hc. destruct Hc as [H0 Hc].
    cbn [watch filter].
    destruct r as [ev| |err|]; try discriminate H0;
      cbn [watch_step is_change is_error_value].
    + destruct (fsnotify.Op ev =? fsnotify.Chmod)%N; cbn [negb].
      * apply IH. exact Hc.
      * destruct (IH (log (fold_left go (watch_dirs cfg (fsnotify.Name ev)) w)
                          zap.DebugLevel "fsnotify event" [zap.Any "ev" ev])
                     Hc) as (Hd & He & Hl).
        rewrite Hd, He, Hl, debug_count_log, error_count_log.
        unfold debug_count, error_count. cbn [log logs].
        rewrite length_app, !logs_fold_go. cbn [List.length]. lia.
    + destruct (IH (log w zap.ErrorLevel "fsnotify error" [zap.Error err])
                   Hc) as (Hd & He & Hl).
      rewrite Hd, He, Hl, debug_count_log, error_count_log.
      cbn [log logs]. rewrite length_app. cbn [List.length]. lia.
Qed.

Lemma watch_log_accounting_witness :
  debug_count
    (fst (watch proj_cfg empty_world
                [EventRecv (change "/proj/foo_test.go" fsnotify.Chmod);
                 EventRecv (change "/proj/foo_test.go" fsnotify.Write);
                 ErrorRecv (WatcherError "overflow")])) = 0 + 1.
Proof.
  exact (proj1 (watch_log_accounting
                  proj_cfg
                  [EventRecv (change "/proj/foo_test.go" fsnotify.Chmod);
                   EventRecv (change "/proj/foo_test.go" fsnotify.Write);
                   ErrorRecv (WatcherError "overflow")]
                  empty_world eq_refl)).
Defined.

(** ** The goroutines of [do] *)

Lemma process_step_run (cfg : Config) (p : Process) (n : nat) (os : exec.OS)
      (g : Goroutine) :
  panicked p = None ->
  nth_error (goroutines (world p)) n = Some g ->
  process_step cfg p (RunGoroutine n os) =
  let w := {| logs := logs (world p);
              refreshes := refreshes (world p);
              goroutines := remove_nth n (goroutines (world p)) |} in
  {| world := fst (run_goroutine os w g);
     dispatcher := dispatcher p;
     panicked := match snd (run_goroutine os w g) with
                 | Return _ => None
                 | Panic why => Some why
                 end |}.
Proof.
  intros Hp Hn. unfold process_step. rewrite Hp, Hn. cbv zeta.
  destruct (run_goroutine os _ g) as [w' [u|why]]; reflexivity.
Qed.

(** X5: when the test command of the directory exits with status 0, the
    goroutine of [do] that runs the retest writes the info record of
    [retest] and nothing else: no error record, no refresh, and the
    process goes on. *)
Theorem retest_success_leaves_no_error
        (cfg : Config) (os : exec.OS) (p : Process) (n : nat) (m : string)
        (wdir : Dir) (name : string) (args : list string) :
  panicked p = None ->
  nth_error (goroutines (world p)) n = Some (GoFunc m (RetestClosure wdir)) ->
  TestCommand wdir = name :: args ->
  os name args = exec.Exited 0 ->
  let p' := process_step cfg p (RunGoroutine n os) in
  logs (world p') =
    (logs (world p) ++
       [ {| zap.level := zap.InfoLevel;
            zap.message := "retesting directory";
            zap.fields := [zap.String "dir" (Path wdir)] |} ])%list /\
  error_count (world p') = error_count (world p) /\
  refreshes (world p') = refreshes (world p) /\
  goroutines (world p') = remove_nth n (goroutines (world p)) /\
  dispatcher p' = dispatcher p /\
  panicked p' = None.
Proof.
  intros Hp Hn Hc Hos p'.
  assert (H : p' = {| world :=
                        log {| logs := logs (world p);
                               refreshes := refreshes (world p);
                               goroutines :=
                                 remove_nth n (goroutines (world p)) |}
                            zap.InfoLevel "retesting directory"
                            [zap.String "dir" (Path wdir)];
                      dispatcher := dispatcher p;
                      panicked := None |}).
  { unfold p'. rewrite (process_step_run cfg p n os _ Hp Hn). cbv zeta.
    unfold run_goroutine, do_func, call, retest, exec.Run.
    rewrite Hc, Hos. reflexivity. }
  rewrite H. cbn [world dispatcher panicked].
  rewrite error_count_log.
  repeat split. unfold error_count. cbn [logs]. lia.
Qed.

Lemma retest_success_leaves_no_error_witness :
  error_count (world (process_step proj_cfg proj_retest_pending
                                   (RunGoroutine 0 succeeding_os))) =
  error_count (world proj_retest_pending).
Proof.
  exact (proj1 (proj2 (retest_success_leaves_no_error
                         proj_cfg succeeding_os proj_retest_pending 0
                         "failed to test" proj "go" ["test"; "./..."]
                         eq_refl eq_refl eq_refl eq_refl))).
Defined.

Lemma run_process_panicked (cfg : Config) (ss : list Sched) (p : Process) :
  panicked p <> None -> run_process cfg p ss = p.
Proof.
  intros Hp. unfold run_process.
  induction ss as [|s ss IH]; [reflexivity|].
  cbn [fold_left].
  replace (process_step cfg p s) with p; [exact IH|].
  unfold process_step. destruct (panicked p); [reflexivity | now elim Hp].
Qed.

(** X6: [do] does not recover a panic of the function it runs.  For a
    directory with an empty test command the goroutine of the retest
    panics after the info record of [retest]: no error record is written,
    the process is over, and nothing the scheduler does afterwards changes
    it; in particular [watch] handles no further event. *)
Theorem retest_panic_ends_process
        (cfg : Config) (os : exec.OS) (p : Process) (n : nat) (m : string)
        (wdir : Dir) :
  panicked p = None ->
  nth_error (goroutines (world p)) n = Some (GoFunc m (RetestClosure wdir)) ->
  TestCommand wdir = [] ->
  let p' := process_step cfg p (RunGoroutine n os) in
  panicked p' = Some "index out of range [0] with length 0" /\
  error_count (world p') = error_count (world p) /\
  (forall ss, run_process cfg p' ss = p').
Proof.
  intros Hp Hn Hc p'.
  assert (Hpan : panicked p' = Some "index out of range [0] with length 0").
  { unfold p'. rewrite (process_step_run cfg p n os _ Hp Hn). cbv zeta.
    unfold run_goroutine, do_func, call, retest. rewrite Hc. reflexivity. }
  split; [exact Hpan|]. split.
  - unfold p'. rewrite (process_step_run cfg p n os _ Hp Hn). cbv zeta.
    unfold run_goroutine, do_func, call, retest. rewrite Hc.
    cbn [fst world]. rewrite error_count_log.
    unfold error_count. cbn [logs]. lia.
  - intros ss. apply run_process_panicked. rewrite Hpan. discriminate.
Qed.

Lemma retest_panic_ends_process_witness :
  panicked (process_step proj_cfg no_command_pending
                         (RunGoroutine 0 succeeding_os)) =
  Some "index out of range [0] with length 0".
Proof.
  exact (proj1 (retest_panic_ends_process
                  proj_cfg succeeding_os no_command_pending 0
                  "failed to test" no_command eq_refl eq_refl eq_refl)).
Defined.

Lemma nth_error_snoc {A : Type} (l : list A) (x : A) :
  nth_error (l ++ [x]) (List.length l) = Some x.
Proof.
  rewrite nth_error_app2 by lia. now rewrite Nat.sub_diag.
Qed.

Lemma remove_nth_snoc {A : Type} (l : list A) (x : A) :
  remove_nth (List.length l) (l ++ [x]) = l.
Proof.
  unfold remove_nth.
  rewrite firstn_app, Nat.sub_diag, firstn_all, skipn_app.
  rewrite skipn_all2 by lia.
  replace (S (List.length l) - List.length l) with 1 by lia.
  cbn. now rewrite !app_nil_r.
Qed.

(** X7: [go do(logs, m, f)] runs nothing of [f] by itself: its goroutine
    only starts the goroutine of [do].  For a reload that second goroutine
    writes the info record of [reload], refreshes the browsers once and
    writes no error record, whatever the operating system does; the two
    steps leave pending what was pending beside the reload. *)
Theorem do_reload_refreshes_once
        (cfg : Config) (os1 os2 : exec.OS) (p : Process) (n : nat)
        (m : string) (wdir : Dir) :
  panicked p = None ->
  nth_error (goroutines (world p)) n = Some (GoDo m (ReloadClosure wdir)) ->
  let rest := remove_nth n (goroutines (world p)) in
  let p1 := process_step cfg p (RunGoroutine n os1) in
  let p2 := process_step cfg p1 (RunGoroutine (List.length rest) os2) in
  world p1 = {| logs := logs (world p);
                refreshes := refreshes (world p);
                goroutines := (rest ++ [GoFunc m (ReloadClosure wdir)])%list |}
  /\
  world p2 = {| logs := (logs (world p) ++
                           [ {| zap.level := zap.InfoLevel;
                                zap.message := "reloading screenshots";
                                zap.fields :=
                                  [zap.String "dir" (Path wdir)] |} ])%list;
                refreshes := S (refreshes (world p));
                goroutines := rest |} /\
  error_count (world p2) = error_count (world p) /\
  dispatcher p2 = dispatcher p /\
  panicked p2 = None.
Proof.
  intros Hp Hn rest p1 p2.
  assert (H1 : p1 = {| world :=
                         {| logs := logs (world p);
                            refreshes := refreshes (world p);
                            goroutines :=
                              (rest ++ [GoFunc m (ReloadClosure wdir)])%list |};
                       dispatcher := dispatcher p;
                       panicked := None |}).
  { unfold p1. rewrite (process_step_run cfg p n os1 _ Hp Hn). reflexivity. }
  assert (H2 : p2 = {| world :=
                         {| logs := (logs (world p) ++
                                       [ {| zap.level := zap.InfoLevel;
                                            zap.message := "reloading screenshots";
                                            zap.fields :=
                                              [zap.String "dir" (Path wdir)] |}
                                       ])%list;
                            refreshes := S (refreshes (world p));
                            goroutines := rest |};
                       dispatcher := dispatcher p;
                       panicked := None |}).
  { unfold p2. rewrite H1.
    rewrite (process_step_run cfg _ (List.length rest) os2
                              (GoFunc m (ReloadClosure wdir)))
      by (reflexivity || (cbn [world goroutines]; apply nth_error_snoc)).
    cbn [world goroutines logs refreshes dispatcher]. cbv zeta.
    rewrite remove_nth_snoc. reflexivity. }
  rewrite H1, H2. cbn [world dispatcher panicked].
  repeat split.
  unfold error_count. cbn [logs]. rewrite filter_app, length_app. cbn. lia.
Qed.

Lemma do_reload_refreshes_once_witness :
  world (process_step proj_cfg
           (process_step proj_cfg proj_reload_pending
                         (RunGoroutine 0 failing_os))
           (RunGoroutine 0 failing_os)) =
  {| logs := [ {| zap.level := zap.InfoLevel;
                  zap.message := "reloading screenshots";
                  zap.fields := [zap.String "dir" "/proj"] |} ];
     refreshes := 1;
     goroutines := [] |}.
Proof.
  exact (proj1 (proj2 (do_reload_refreshes_once
                         proj_cfg failing_os failing_os proj_reload_pending
                         0 "failed to reload" proj eq_refl eq_refl))).
Defined.

(** * [filepath.Join] on clean absolute paths *)

Lemma append_assoc (p q r : string) : (p ++ q) ++ r = p ++ (q ++ r).
Proof. induction p as [|c p IH]; simpl; [reflexivity | now rewrite IH]. Qed.

Lemma good_seg_inv (s : string) :
  good_seg s = true ->
  is_empty s = false /\ filepath.contains_sep s = false /\
  String.eqb s "." = false /\ String.eqb s ".." = false.
Proof.
  unfold good_seg.
  destruct (is_empty s), (filepath.contains_sep s), (String.eqb s "."),
    (String.eqb s ".."); simpl; intros H; try discriminate H; auto.
Qed.

Lemma abs_path_app (a b : list string) :
  abs_path (a ++ b) = abs_path a ++ abs_path b.
Proof.
  induction a as [|s a IH]; [reflexivity|].
  cbn [app abs_path append]. now rewrite IH, append_assoc.
Qed.

Lemma at_element_end_abs_path (segs : list string) (tl : string) :
  filepath.at_element_end tl = true ->
  filepath.at_element_end (abs_path segs ++ tl) = true.
Proof. destruct segs; [easy | reflexivity]. Qed.

(** The inner loop of [Clean] copies an element to the buffer. *)
Lemma clean_loop_copy (s : string) :
  forall rest rooted out dotdot,
    filepath.contains_sep s = false ->
    filepath.clean_loop (s ++ rest) rooted true out dotdot =
    filepath.clean_loop rest rooted true (out ++ s) dotdot.
Proof.
  induction s as [|c s IH]; intros rest rooted out dotdot Hs.
  - now rewrite append_empty_r.
  - cbn [filepath.contains_sep] in Hs. apply orb_false_elim in Hs.
    destruct Hs as [Hc Hs].
    cbn [append filepath.clean_loop]. rewrite Hc.
    rewrite IH by exact Hs. unfold filepath.lazybuf_append.
    now rewrite append_assoc.
Qed.

(** At the start of an element that is neither empty, [.] nor [..], the
    loop adds a slash if needed and starts copying. *)
Lemma clean_loop_elem (c : ascii) (s rest : string) (rooted : bool)
      (out : string) (dotdot : nat) :
  good_seg (String c s) = true ->
  filepath.at_element_end rest = true ->
  filepath.clean_loop (String c (s ++ rest)) rooted false out dotdot =
  filepath.clean_loop
    (s ++ rest) rooted true
    (filepath.lazybuf_append
       (if (rooted && negb (String.length out =? 1)%nat)
           || (negb rooted && negb (String.length out =? 0)%nat)
        then filepath.lazybuf_append out filepath.Separator else out) c)
    dotdot.
Proof.
  intros Hg Hrest. apply good_seg_inv in Hg.
  destruct Hg as (_ & Hsep & Hdot & Hdotdot).
  cbn [filepath.contains_sep] in Hsep. apply orb_false_elim in Hsep.
  destruct Hsep as [Hc Hs].
  cbn [append filepath.clean_loop]. rewrite Hc.
  destruct s as [|c1 s1].
  - (* the element is the byte [c], which is not a dot *)
    assert (Hcd : Ascii.eqb c "." = false).
    { cbn in Hdot. destruct (Ascii.eqb c "."); [discriminate Hdot | easy]. }
    cbn [append]. rewrite Hcd. cbn [andb].
    destruct rest; reflexivity.
  - cbn [filepath.contains_sep] in Hs. apply orb_false_elim in Hs.
    destruct Hs as [Hc1 Hs1].
    cbn [append filepath.at_element_end]. rewrite Hc1, andb_false_r.
    destruct s1 as [|c2 s2].
    + (* two bytes, not both dots *)
      assert (Hcd : Ascii.eqb c "." && Ascii.eqb c1 "." = false).
      { cbn in Hdotdot.
        destruct (Ascii.eqb c "."), (Ascii.eqb c1 ".");
          try reflexivity; discriminate Hdotdot. }
      cbn [append]. rewrite Hcd. reflexivity.
    + cbn [filepath.contains_sep] in Hs1. apply orb_false_elim in Hs1.
      destruct Hs1 as [Hc2 _].
      cbn [append filepath.at_element_end]. rewrite Hc2, andb_false_r.
      reflexivity.
Qed.

Lemma abs_path_length (s : string) (segs : list string) :
  2 <= String.length (abs_path (s :: segs)) \/ is_empty s = true.
Proof.
  destruct s; [now right | left]. cbn. lia.
Qed.

Lemma clean_loop_sep (t : string) (rooted inelem : bool) (out : string)
      (dotdot : nat) :
  filepath.clean_loop (String "/" t) rooted inelem out dotdot =
  filepath.clean_loop t rooted false out dotdot.
Proof. reflexivity. Qed.

(** With more than the root in the buffer, the loop appends clean
    elements as they are. *)
Lemma clean_loop_segs (segs : list string) :
  forall tl out,
    Forall (fun s => good_seg s = true) segs ->
    filepath.at_element_end tl = true ->
    2 <= String.length out ->
    filepath.clean_loop (abs_path segs ++ tl) true true out 1 =
    filepath.clean_loop tl true true (out ++ abs_path segs) 1.
Proof.
  induction segs as [|s segs IH]; intros tl out Hg Htl Hout.
  - cbn [abs_path append]. now rewrite append_empty_r.
  - inversion Hg as [|? ? Hs Hsegs]; subst.
    destruct (good_seg_inv s Hs) as (Hne & Hsep & _).
    destruct s as [|c s']; [discriminate Hne|].
    cbn [abs_path append]. rewrite append_assoc, clean_loop_sep.
    rewrite (clean_loop_elem c s' _ true out 1 Hs)
      by (now apply at_element_end_abs_path).
    assert (Hw : (String.length out =? 1)%nat = false)
      by (apply Nat.eqb_neq; lia).
    rewrite Hw. cbn [andb negb orb].
    cbn [filepath.contains_sep] in Hsep. apply orb_false_elim in Hsep.
    rewrite clean_loop_copy by (apply Hsep).
    rewrite IH; [|exact Hsegs|exact Htl|].
    + f_equal. unfold filepath.lazybuf_append.
      rewrite !append_assoc. reflexivity.
    + unfold filepath.lazybuf_append. rewrite !append_length. simpl. lia.
Qed.

(** [Clean] on a clean absolute path followed by [tl]: the state of the
    loop when it reaches [tl]. *)
Lemma Clean_abs_path_then (segs : list string) (tl : string) :
  segs <> [] ->
  Forall (fun s => good_seg s = true) segs ->
  filepath.at_element_end tl = true ->
  filepath.Clean (abs_path segs ++ tl) =
  let out := filepath.clean_loop tl true true (abs_path segs) 1 in
  if is_empty out then "." else out.
Proof.
  intros Hne Hg Htl.
  destruct segs as [|s segs]; [now elim Hne|].
  inversion Hg as [|? ? Hs Hsegs]; subst.
  destruct (good_seg_inv s Hs) as (Hnes & Hsep & _).
  destruct s as [|c s']; [discriminate Hnes|].
  cbn [abs_path append]. rewrite append_assoc.
  unfold filepath.Clean.
  replace (filepath.IsPathSeparator "/") with true by reflexivity.
  cbn [drop].
  rewrite (clean_loop_elem c s' _ true "/" 1 Hs)
    by (now apply at_element_end_abs_path).
  cbn [String.length Nat.eqb andb negb orb].
  cbn [filepath.contains_sep] in Hsep. apply orb_false_elim in Hsep.
  rewrite clean_loop_copy by (apply Hsep).
  rewrite clean_loop_segs; [|exact Hsegs|exact Htl|].
  - unfold filepath.lazybuf_append. cbn [append].
    rewrite ?append_assoc. cbn [append]. reflexivity.
  - unfold filepath.lazybuf_append. rewrite !append_length. simpl. lia.
Qed.

Lemma abs_path_not_empty (segs : list string) :
  segs <> [] -> is_empty (abs_path segs) = false.
Proof. destruct segs; [easy | reflexivity]. Qed.

(** X8: [filepath.Clean] leaves a clean absolute path as it is, also when
    it is written with a slash at its end; so joining the path of a
    directory with an empty pattern gives the path of the directory, and
    joining it with one clean element gives the path, a slash and the
    element. *)
Theorem Join_clean_dir (segs : list string) (pattern : string) :
  segs <> [] ->
  Forall (fun s => good_seg s = true) segs ->
  filepath.Clean (abs_path segs) = abs_path segs /\
  filepath.Clean (abs_path segs ++ "/") = abs_path segs /\
  filepath.Join [abs_path segs; ""] = abs_path segs /\
  (good_seg pattern = true ->
   filepath.Join [abs_path segs; pattern] =
   abs_path segs ++ "/" ++ pattern).
Proof.
  intros Hne Hg.
  assert (H1 : filepath.Clean (abs_path segs) = abs_path segs).
  { rewrite <- (append_empty_r (abs_path segs)) at 1.
    rewrite Clean_abs_path_then by easy.
    cbn [filepath.clean_loop]. cbv zeta.
    now rewrite abs_path_not_empty. }
  assert (H2 : filepath.Clean (abs_path segs ++ "/") = abs_path segs).
  { rewrite Clean_abs_path_then by easy.
    cbn. now rewrite abs_path_not_empty. }
  split; [exact H1|]. split; [exact H2|]. split.
  - cbn [filepath.Join filepath.strings_Join].
    rewrite abs_path_not_empty by exact Hne. exact H2.
  - intros Hp.
    cbn [filepath.Join filepath.strings_Join].
    rewrite abs_path_not_empty by exact Hne.
    assert (E : abs_path segs ++ String filepath.Separator pattern =
                abs_path (segs ++ [pattern])).
    { rewrite abs_path_app. cbn [abs_path]. now rewrite append_empty_r. }
    rewrite E.
    rewrite <- (append_empty_r (abs_path (segs ++ [pattern]))) at 1.
    rewrite Clean_abs_path_then; [| |apply Forall_app; auto|reflexivity].
    + cbn [filepath.clean_loop]. cbv zeta.
      rewrite abs_path_not_empty; [now rewrite <- E|].
      destruct segs; discriminate.
    + destruct segs; discriminate.
Qed.

Lemma Join_clean_dir_witness :
  filepath.Join [abs_path ["home"; "me"; "proj"]; "*_test.go"] =
  abs_path ["home"; "me"; "proj"] ++ "/" ++ "*_test.go".
Proof.
  apply (Join_clean_dir ["home"; "me"; "proj"] "*_test.go");
    [discriminate | repeat constructor | reflexivity].
Defined.

(** * Globs of a directory with a clean absolute path *)

Lemma is_literal_app (p q : string) :
  is_literal (p ++ q) = is_literal p && is_literal q.
Proof.
  induction p as [|c p IH]; [reflexivity|].
  cbn [append is_literal]. now rewrite IH, andb_assoc.
Qed.

Lemma good_seg_star (suf : string) :
  filepath.contains_sep suf = false -> good_seg ("*" ++ suf) = true.
Proof.
  intros Hs. unfold good_seg. cbn [append is_empty filepath.contains_sep].
  rewrite Hs. reflexivity.
Qed.

(** X9: for a directory whose path is a clean absolute path without
    pattern bytes, a pattern [*suf] with literal [suf] without separator
    matches exactly the names [path/mid·suf] where [mid] has no
    separator: the files directly in the directory whose name ends in
    [suf], and nothing below or outside it.  No error is reported. *)
Theorem glob_star_in_clean_dir
        (D : Dir) (segs : list string) (suf name : string) :
  Path D = abs_path segs ->
  segs <> [] ->
  Forall (fun s => good_seg s = true) segs ->
  is_literal (Path D) = true ->
  is_literal suf = true ->
  filepath.contains_sep suf = false ->
  (fst (glob D ("*" ++ suf) name) = true <->
   exists mid,
     name = Path D ++ "/" ++ mid ++ suf /\
     filepath.contains_sep mid = false) /\
  snd (glob D ("*" ++ suf) name) = None.
Proof.
  intros HP Hne Hg Hlit Hsuf Hsep. unfold glob. rewrite HP in *.
  destruct (Join_clean_dir segs ("*" ++ suf) Hne Hg) as (_ & _ & _ & HJ).
  rewrite (HJ (good_seg_star suf Hsep)).
  assert (E : abs_path segs ++ "/" ++ "*" ++ suf =
              (abs_path segs ++ "/") ++ "*" ++ suf)
    by now rewrite append_assoc.
  rewrite E.
  assert (Hpre : is_literal (abs_path segs ++ "/") = true)
    by (rewrite is_literal_app, Hlit; reflexivity).
  rewrite Match_literal_star by assumption. cbn [fst snd].
  split; [|reflexivity]. split.
  - destruct (strip_prefix (abs_path segs ++ "/") name) as [t|] eqn:Et;
      [|discriminate].
    intros H. apply star_then_spec in H. destruct H as [mid [-> Hm]].
    apply strip_prefix_spec in Et. exists mid.
    rewrite Et, append_assoc. auto.
  - intros [mid [-> Hm]].
    assert (Et : strip_prefix (abs_path segs ++ "/")
                              (abs_path segs ++ "/" ++ mid ++ suf)
                 = Some (mid ++ suf))
      by (apply strip_prefix_spec; now rewrite append_assoc).
    rewrite Et. apply star_then_spec. exists mid. auto.
Qed.

Lemma glob_star_in_clean_dir_witness :
  fst (glob proj ("*" ++ "_test.go") "/proj/sub/foo_test.go") = true <->
  exists mid,
    "/proj/sub/foo_test.go" = Path proj ++ "/" ++ mid ++ "_test.go" /\
    filepath.contains_sep mid = false.
Proof.
  apply (glob_star_in_clean_dir proj ["proj"] "_test.go"
                                "/proj/sub/foo_test.go");
    try reflexivity; [discriminate | repeat constructor].
Defined.

(** X10: a pattern that is not set (the empty string) is joined to the
    path of the directory itself.  For a directory with a clean absolute
    path without pattern bytes it matches exactly the event named as the
    directory; with an empty test-file pattern such an event starts a
    retest. *)
Theorem glob_empty_pattern_matches_dir
        (D : Dir) (segs : list string) (name : string) :
  Path D = abs_path segs ->
  segs <> [] ->
  Forall (fun s => good_seg s = true) segs ->
  is_literal (Path D) = true ->
  glob D "" name = (String.eqb name (Path D), None) /\
  (fst (glob D "" name) = true <-> name = Path D) /\
  (TestFilePattern D = "" ->
   watch_dir (Path D) D = [GoDo "failed to test" (RetestClosure D)]).
Proof.
  intros HP Hne Hg Hlit.
  assert (H : forall n, glob D "" n = (String.eqb n (Path D), None)).
  { intros n. unfold glob. rewrite HP in *.
    destruct (Join_clean_dir segs "" Hne Hg) as (_ & _ & HJ & _).
    rewrite HJ. now apply Match_literal. }
  split; [apply H|]. split.
  - rewrite H. cbn [fst]. apply String.eqb_eq.
  - intros Ht. unfold watch_dir. rewrite Ht, H. cbn [fst].
    now rewrite String.eqb_refl.
Qed.

Lemma glob_empty_pattern_matches_dir_witness :
  watch_dir "/proj" unset_test_pattern =
  [GoDo "failed to test" (RetestClosure unset_test_pattern)].
Proof.
  apply (glob_empty_pattern_matches_dir unset_test_pattern ["proj"] "/proj");
    try reflexivity; [discriminate | repeat constructor].
Defined.

(** * The handler of the screenshot image *)

(** X11: [screenshot] serves a file exactly when the name decodes, the
    index is a decimal number and that number is the index of a configured
    directory; it then returns nil.  When both parameters decode but the
    number is negative or not below the number of directories, the
    handler panics on [cfg.Dirs[dirIdx]] instead of returning an error.  A
    name that does not decode is reported whatever the index is. *)
Theorem screenshot_index_bounds
        (DecodeString : base64.Decoder) (cfg : Config)
        (nameB64 dirIdxParam : string) :
  let res := screenshot DecodeString cfg nameB64 dirIdxParam in
  (forall path,
      fst res = ServeFile path <->
      exists name i wdir,
        DecodeString nameB64 = (name, None) /\
        strconv.Atoi dirIdxParam = (i, None) /\
        (0 <= i < Z.of_nat (List.length (Dirs cfg)))%Z /\
        nth_error (Dirs cfg) (Z.to_nat i) = Some wdir /\
        path = filepath.Join [Path wdir; name]) /\
  ((exists why, snd res = Panic why) <->
   exists name i,
     DecodeString nameB64 = (name, None) /\
     strconv.Atoi dirIdxParam = (i, None) /\
     (i < 0 \/ Z.of_nat (List.length (Dirs cfg)) <= i)%Z) /\
  (forall path, fst res = ServeFile path -> snd res = Return None) /\
  (forall e, snd (DecodeString nameB64) = Some e ->
             res = (NoResponse,
                    Return (Some (ErrScreenshotName
                      "failed to de decode base64 encoded screenshot name: "
                      e)))).
Proof.
  cbv zeta. unfold screenshot.
  destruct (DecodeString nameB64) as [name [e|]].
  { repeat split; try discriminate.
    - intros (n & i & d & H & _). discriminate H.
    - intros [w H]. discriminate H.
    - intros (n & i & H & _). discriminate H.
    - intros e' H. cbn in H. now inversion H. }
  destruct (strconv.Atoi dirIdxParam) as [i [e|]].
  { repeat split; try discriminate.
    - intros (n & j & d & _ & H & _). discriminate H.
    - intros [w H]. discriminate H.
    - intros (n & j & _ & H & _). discriminate H. }
  destruct (i <? 0)%Z eqn:Hneg.
  { apply Z.ltb_lt in Hneg. repeat split; try discriminate.
    - intros (n & j & d & _ & H & Hr & _). inversion H; subst. lia.
    - intros _. exists name, i. auto.
    - intros _. eexists. reflexivity. }
  apply Z.ltb_ge in Hneg.
  destruct (nth_error (Dirs cfg) (Z.to_nat i)) as [wdir|] eqn:Hn.
  - assert (Hlt : Z.to_nat i < List.length (Dirs cfg))
      by (apply nth_error_Some; rewrite Hn; discriminate).
    repeat split; try discriminate.
    + intros H. inversion H; subst.
      exists name, i, wdir. repeat split; auto; lia.
    + intros (n & j & d & H1 & H2 & _ & H3 & ->).
      inversion H1; inversion H2; subst. rewrite Hn in H3.
      inversion H3; subst. reflexivity.
    + intros [w H]. discriminate H.
    + intros (n & j & _ & H & Hr). inversion H; subst. lia.
  - apply nth_error_None in Hn.
    repeat split; try discriminate.
    + intros (n & j & d & _ & H & Hr & _). inversion H; subst. lia.
    + intros _. exists name, i. repeat split; auto. lia.
    + intros _. eexists. reflexivity.
Qed.

Lemma screenshot_index_bounds_witness :
  exists why,
    snd (screenshot traversal_decoder proj_cfg "Li4vc2VjcmV0LnR4dA==" "1")
    = Panic why.
Proof.
  apply (proj1 (proj2 (screenshot_index_bounds
                         traversal_decoder proj_cfg
                         "Li4vc2VjcmV0LnR4dA==" "1"))).
  exists "../secret.txt", 1%Z.
  split; [reflexivity|]. split; [reflexivity|]. right. cbn. lia.
Defined.

(** * Names that leave the directory *)

Lemma lazybuf_index_nosep (d : string) :
  forall j,
    filepath.contains_sep d = false ->
    filepath.IsPathSeparator (filepath.lazybuf_index d j) = false.
Proof.
  unfold filepath.lazybuf_index.
  induction d as [|c d IH]; intros j Hd; [reflexivity|].
  cbn [filepath.contains_sep] in Hd. apply orb_false_elim in Hd.
  destruct Hd as [Hc Hd].
  destruct j as [|j]; cbn [String.get]; [exact Hc | now apply IH].
Qed.

Lemma lazybuf_index_app (base x : string) (j : nat) :
  filepath.lazybuf_index (base ++ x) (String.length base + j) =
  filepath.lazybuf_index x j.
Proof.
  unfold filepath.lazybuf_index.
  induction base as [|c base IH]; [reflexivity|].
  cbn [append String.length Nat.add String.get]. exact IH.
Qed.

(** The backtracking loop stops at the first separator it meets, or at
    [dotdot]. *)
Lemma backtrack_stops (out : string) (dotdot w0 : nat) :
  forall k,
    (forall i, w0 < i <= w0 + k ->
               filepath.IsPathSeparator (filepath.lazybuf_index out i)
               = false) ->
    dotdot <= w0 ->
    w0 = dotdot
    \/ filepath.IsPathSeparator (filepath.lazybuf_index out w0) = true ->
    filepath.backtrack out dotdot (w0 + k) = w0.
Proof.
  induction k as [|k IH]; intros Hns Hd Hstop.
  - rewrite Nat.add_0_r. destruct w0 as [|w0]; [reflexivity|].
    cbn [filepath.backtrack].
    destruct Hstop as [-> | Hs].
    + now rewrite Nat.ltb_irrefl.
    + rewrite Hs. now rewrite andb_false_r.
  - replace (w0 + S k) with (S (w0 + k)) by lia.
    cbn [filepath.backtrack].
    assert (Hlt : (dotdot <? S (w0 + k))%nat = true)
      by (apply Nat.ltb_lt; lia).
    rewrite Hlt, Hns by lia. cbn [andb negb].
    apply IH; auto. intros i Hi. apply Hns. lia.
Qed.

Lemma clean_loop_dotdot (f out : string) (inelem : bool) :
  2 <= String.length out ->
  filepath.clean_loop (String "/" (String "." (String "." (String "/" f))))
                      true inelem out 1 =
  filepath.clean_loop
    f true false
    (take (filepath.backtrack out 1 (String.length out - 1)) out) 1.
Proof.
  intros Hout. rewrite clean_loop_sep.
  cbn [filepath.clean_loop].
  replace (filepath.IsPathSeparator ".") with false by reflexivity.
  replace (Ascii.eqb "." ".") with true by reflexivity.
  cbn [andb filepath.at_element_end].
  replace (filepath.IsPathSeparator ".") with false by reflexivity.
  replace (filepath.IsPathSeparator "/") with true by reflexivity.
  assert (Hw : (1 <? String.length out)%nat = true)
    by (apply Nat.ltb_lt; lia).
  rewrite Hw. reflexivity.
Qed.

Lemma clean_loop_last (f : string) (out : string) :
  good_seg f = true ->
  filepath.clean_loop f true false out 1 =
  (if (String.length out =? 1)%nat then out else out ++ "/") ++ f.
Proof.
  intros Hf. destruct (good_seg_inv f Hf) as (Hne & Hsep & _).
  destruct f as [|c f']; [discriminate Hne|].
  rewrite <- (append_empty_r f') at 1.
  rewrite (clean_loop_elem c f' "" true out 1 Hf eq_refl).
  cbn [filepath.contains_sep] in Hsep. apply orb_false_elim in Hsep.
  rewrite clean_loop_copy by apply Hsep.
  cbn [filepath.clean_loop].
  unfold filepath.lazybuf_append, filepath.Separator.
  destruct (String.length out =? 1)%nat; cbn [andb negb orb];
    rewrite ?append_assoc; cbn [append]; reflexivity.
Qed.

Lemma backtrack_last_seg (segs : list string) (d : string) :
  Forall (fun s => good_seg s = true) segs ->
  good_seg d = true ->
  let out := abs_path (segs ++ [d]) in
  take (filepath.backtrack out 1 (String.length out - 1)) out =
  match segs with
  | [] => "/"
  | _ => abs_path segs
  end.
Proof.
  intros Hg Hd. destruct (good_seg_inv d Hd) as (Hne & Hsep & _).
  cbv zeta. rewrite abs_path_app. cbn [abs_path].
  rewrite append_empty_r.
  destruct segs as [|s segs].
  - cbn [abs_path append String.length].
    destruct d as [|c d']; [discriminate Hne|].
    cbn [String.length].
    replace (S (S (String.length d')) - 1) with (1 + String.length d')
      by lia.
    rewrite backtrack_stops; [reflexivity| |lia|now left].
    intros i Hi. destruct i as [|i]; [lia|].
    unfold filepath.lazybuf_index. cbn [String.get].
    now apply (lazybuf_index_nosep (String c d')).
  - set (base := abs_path (s :: segs)).
    assert (Hb : 1 <= String.length base) by (unfold base; cbn; lia).
    rewrite append_length. cbn [String.length].
    replace (String.length base + S (String.length d) - 1)
      with (String.length base + String.length d) by lia.
    rewrite backtrack_stops.
    + apply take_app.
    + intros i Hi.
      replace i with (String.length base + S (i - String.length base - 1))
        by lia.
      rewrite lazybuf_index_app.
      unfold filepath.lazybuf_index. cbn [String.get].
      now apply lazybuf_index_nosep.
    + lia.
    + right. rewrite <- (Nat.add_0_r (String.length base)).
      rewrite lazybuf_index_app. reflexivity.
Qed.

Lemma Join_dotdot (segs : list string) (d f : string) :
  Forall (fun s => good_seg s = true) segs ->
  good_seg d = true ->
  good_seg f = true ->
  filepath.Join [abs_path (segs ++ [d]); "../" ++ f] = abs_path (segs ++ [f]).
Proof.
  intros Hg Hd Hf.
  assert (Hne : (segs ++ [d])%list <> []) by (destruct segs; discriminate).
  cbn [filepath.Join filepath.strings_Join].
  rewrite abs_path_not_empty by exact Hne.
  rewrite Clean_abs_path_then;
    [|exact Hne|apply Forall_app; auto|reflexivity].
  cbv zeta.
  assert (Hlen : 2 <= String.length (abs_path (segs ++ [d]))).
  { destruct (good_seg_inv d Hd) as (Hned & _).
    rewrite abs_path_app, append_length.
    destruct d; [discriminate Hned|]. cbn. lia. }
  assert (E : filepath.clean_loop
                (String filepath.Separator ("../" ++ f)) true true
                (abs_path (segs ++ [d])) 1 = abs_path (segs ++ [f])).
  { change (String filepath.Separator ("../" ++ f))
      with (String "/" (String "." (String "." (String "/" f)))).
    rewrite clean_loop_dotdot by exact Hlen.
    rewrite (backtrack_last_seg segs d Hg Hd).
    rewrite clean_loop_last by exact Hf.
    rewrite abs_path_app. cbn [abs_path]. rewrite append_empty_r.
    destruct segs as [|s segs]; [reflexivity|].
    assert (Hl : (String.length (abs_path (s :: segs)) =? 1)%nat = false).
    { apply Nat.eqb_neq. inversion Hg as [|? ? Hs _]; subst.
      destruct (good_seg_inv s Hs) as (Hnes & _).
      destruct s; [discriminate Hnes|]. cbn. lia. }
    rewrite Hl, append_assoc. reflexivity. }
  rewrite E. rewrite abs_path_not_empty; [reflexivity|].
  destruct segs; discriminate.
Qed.

(** X12: the decoded name is joined to the path of the directory without
    a check that the result stays in it.  For a directory [/…/d] and a
    name [../f] the handler serves [/…/f], a file beside the directory
    and not in it, and returns nil. *)
Theorem screenshot_serves_outside_directory
        (DecodeString : base64.Decoder) (cfg : Config)
        (nameB64 dirIdxParam : string) (i : Z) (wdir : Dir)
        (segs : list string) (d f : string) :
  DecodeString nameB64 = ("../" ++ f, None) ->
  strconv.Atoi dirIdxParam = (i, None) ->
  (0 <= i)%Z ->
  nth_error (Dirs cfg) (Z.to_nat i) = Some wdir ->
  Path wdir = abs_path (segs ++ [d]) ->
  Forall (fun s => good_seg s = true) segs ->
  good_seg d = true ->
  good_seg f = true ->
  screenshot DecodeString cfg nameB64 dirIdxParam =
  (ServeFile (abs_path (segs ++ [f])), Return None) /\
  strip_prefix (Path wdir ++ "/") (abs_path (segs ++ [f])) = None.
Proof.
  intros Hdec Hidx Hi Hn HP Hg Hd Hf. split.
  - unfold screenshot. rewrite Hdec, Hidx.
    assert (Hneg : (i <? 0)%Z = false) by (apply Z.ltb_ge; lia).
    rewrite Hneg, Hn, HP, Join_dotdot by assumption. reflexivity.
  - rewrite HP. destruct (strip_prefix _ _) as [t|] eqn:E; [|reflexivity].
    apply strip_prefix_spec in E.
    rewrite !abs_path_app in E. cbn [abs_path] in E.
    rewrite !append_empty_r, !append_assoc in E.
    apply append_inv_head in E. cbn [append] in E.
    inversion E as [E'].
    destruct (good_seg_inv f Hf) as (_ & Hsep & _).
    rewrite E' in Hsep. rewrite contains_sep_app in Hsep.
    apply orb_false_elim in Hsep. destruct Hsep as [_ Hsep].
    cbn in Hsep. discriminate Hsep.
Qed.

Lemma screenshot_serves_outside_directory_witness :
  screenshot traversal_decoder proj_cfg "Li4vc2VjcmV0LnR4dA==" "0" =
  (ServeFile "/secret.txt", Return None).
Proof.
  apply (screenshot_serves_outside_directory
           traversal_decoder proj_cfg "Li4vc2VjcmV0LnR4dA==" "0"
           0%Z proj [] "proj" "secret.txt");
    try reflexivity; try lia; constructor.
Defined.

(** * Events that carry the Chmod bit with others *)

(** X13: the test of [watch] is an equality with [fsnotify.Chmod], not a
    test of its bit.  An event whose operation has the Chmod bit and
    another bit, such as Write|Chmod, is not discarded: it starts the
    goroutines of a change of its path and gets its debug record. *)
Theorem chmod_with_other_bits_is_dispatched
        (cfg : Config) (w : World) (ev : fsnotify.Event) :
  N.land (fsnotify.Op ev) fsnotify.Chmod = fsnotify.Chmod ->
  fsnotify.Op ev <> fsnotify.Chmod ->
  pending_after cfg w ev =
    (goroutines w ++ watch_dirs cfg (fsnotify.Name ev))%list /\
  debug_count (fst (watch_step cfg w (EventRecv ev))) = S (debug_count w).
Proof.
  intros _ Hop. split; [now apply pending_after_change|].
  apply N.eqb_neq in Hop. unfold watch_step. rewrite Hop. cbn [fst].
  rewrite debug_count_log. unfold debug_count. rewrite logs_fold_go. lia.
Qed.

Lemma chmod_with_other_bits_is_dispatched_witness :
  pending_after proj_cfg empty_world
                (change "/proj/foo_test.go"
                        (N.lor fsnotify.Write fsnotify.Chmod)) =
  [GoDo "failed to test" (RetestClosure proj)].
Proof.
  assert (H1 : N.land (N.lor fsnotify.Write fsnotify.Chmod) fsnotify.Chmod
               = fsnotify.Chmod) by reflexivity.
  assert (H2 : N.lor fsnotify.Write fsnotify.Chmod <> fsnotify.Chmod)
    by discriminate.
  rewrite (proj1 (chmod_with_other_bits_is_dispatched
                    proj_cfg empty_world
                    (change "/proj/foo_test.go"
                            (N.lor fsnotify.Write fsnotify.Chmod))
                    H1 H2)).
  cbn [change fsnotify.Name]. rewrite watch_dirs_foo_test. reflexivity.
Defined.

(** * A failing retest, from the event to the log *)

Lemma watch_dir_retest (name : string) (wdir : Dir) :
  fst (glob wdir (TestFilePattern wdir) name)
  || fst (glob wdir (TemplateFilePattern wdir) name) = true ->
  watch_dir name wdir = [GoDo "failed to test" (RetestClosure wdir)].
Proof.
  unfold watch_dir.
  destruct (fst (glob wdir (TestFilePattern wdir) name)); [reflexivity|].
  destruct (fst (glob wdir (TemplateFilePattern wdir) name));
    [reflexivity | discriminate].
Qed.

Lemma nth_error_middle {A : Type} (l1 l2 : list A) (x : A) :
  nth_error (l1 ++ x :: l2) (List.length l1) = Some x.
Proof.
  rewrite nth_error_app2 by lia. now rewrite Nat.sub_diag.
Qed.

Lemma remove_nth_middle {A : Type} (l1 l2 : list A) (x : A) :
  remove_nth (List.length l1) (l1 ++ x :: l2) = (l1 ++ l2)%list.
Proof.
  unfold remove_nth.
  rewrite firstn_app, Nat.sub_diag, firstn_all, skipn_app.
  rewrite skipn_all2 by lia.
  replace (S (List.length l1) - List.length l1) with 1 by lia.
  cbn. now rewrite app_nil_r.
Qed.

(** The three steps of a retest that fails: [watch] takes the event and
    starts [go do(...)], that goroutine runs [do], which starts the
    goroutine that runs [retest] and logs its error. *)
Lemma dispatched_retest_fails
      (cfg : Config) (os1 os : exec.OS) (p : Process) (ev : fsnotify.Event)
      (wdir : Dir) (before after : list Dir) :
  panicked p = None ->
  dispatcher p = Listening ->
  fsnotify.Op ev <> fsnotify.Chmod ->
  Dirs cfg = (before ++ wdir :: after)%list ->
  fst (glob wdir (TestFilePattern wdir) (fsnotify.Name ev))
  || fst (glob wdir (TemplateFilePattern wdir) (fsnotify.Name ev)) = true ->
  command_fails os wdir ->
  let debug := {| zap.level := zap.DebugLevel;
                  zap.message := "fsnotify event";
                  zap.fields := [zap.Any "ev" ev] |} in
  let A := (goroutines (world p)
              ++ flat_map (watch_dir (fsnotify.Name ev)) before)%list in
  let B := flat_map (watch_dir (fsnotify.Name ev)) after in
  let p1 := process_step cfg p (Select (EventRecv ev)) in
  let p2 := process_step cfg p1 (RunGoroutine (List.length A) os1) in
  let p3 := process_step cfg p2 (RunGoroutine (List.length (A ++ B)) os) in
  p1 = {| world :=
            {| logs := (logs (world p) ++ [debug])%list;
               refreshes := refreshes (world p);
               goroutines :=
                 (A ++ GoDo "failed to test" (RetestClosure wdir) :: B)%list |};
          dispatcher := Listening; panicked := None |} /\
  p2 = {| world :=
            {| logs := (logs (world p) ++ [debug])%list;
               refreshes := refreshes (world p);
               goroutines :=
                 ((A ++ B)
                    ++ [GoFunc "failed to test" (RetestClosure wdir)])%list |};
          dispatcher := Listening; panicked := None |} /\
  exists err,
    p3 = {| world :=
              {| logs :=
                   (logs (world p)
                      ++ [debug;
                          {| zap.level := zap.InfoLevel;
                             zap.message := "retesting directory";
                             zap.fields := [zap.String "dir" (Path wdir)] |};
                          {| zap.level := zap.ErrorLevel;
                             zap.message := "failed to test";
                             zap.fields :=
                               [zap.Error
                                  (Errorf "failed to run test command: "
                                          err)] |} ])%list;
                 refreshes := refreshes (world p);
                 goroutines := (A ++ B)%list |};
            dispatcher := Listening; panicked := None |}.
Proof.
  intros Hp Hd Hop Hdirs Hm Hfail debug A B p1 p2 p3.
  assert (H1 : p1 = {| world :=
            {| logs := (logs (world p) ++ [debug])%list;
               refreshes := refreshes (world p);
               goroutines :=
                 (A ++ GoDo "failed to test" (RetestClosure wdir) :: B)%list |};
          dispatcher := Listening; panicked := None |}).
  { unfold p1, process_step. rewrite Hp, Hd.
    apply N.eqb_neq in Hop. unfold watch_step. rewrite Hop.
    unfold log. rewrite logs_fold_go, refreshes_fold_go, goroutines_fold_go.
    cbn [logs refreshes goroutines].
    unfold watch_dirs. rewrite Hdirs, flat_map_app. cbn [flat_map].
    rewrite (watch_dir_retest _ _ Hm). unfold A, B.
    rewrite <- app_assoc. reflexivity. }
  assert (H2 : p2 = {| world :=
            {| logs := (logs (world p) ++ [debug])%list;
               refreshes := refreshes (world p);
               goroutines :=
                 ((A ++ B)
                    ++ [GoFunc "failed to test" (RetestClosure wdir)])%list |};
          dispatcher := Listening; panicked := None |}).
  { unfold p2. rewrite H1.
    rewrite (process_step_run cfg _ (List.length A) os1
               (GoDo "failed to test" (RetestClosure wdir)))
      by (reflexivity || (cbn [world goroutines]; apply nth_error_middle)).
    cbn [world goroutines logs refreshes dispatcher]. cbv zeta.
    rewrite remove_nth_middle. reflexivity. }
  split; [exact H1|]. split; [exact H2|].
  destruct (do_func_retest_fails
              os {| logs := (logs (world p) ++ [debug])%list;
                    refreshes := refreshes (world p);
                    goroutines := (A ++ B)%list |}
              "failed to test" wdir Hfail) as [err Herr].
  exists err. unfold p3. rewrite H2.
  rewrite (process_step_run cfg _ (List.length (A ++ B)) os
             (GoFunc "failed to test" (RetestClosure wdir)))
    by (reflexivity || (cbn [world goroutines]; apply nth_error_snoc)).
  cbn [world goroutines logs refreshes dispatcher]. cbv zeta.
  rewrite remove_nth_snoc. cbn [run_goroutine]. rewrite Herr.
  cbn [fst snd]. unfold log. cbn [logs refreshes goroutines].
  rewrite <- !app_assoc. reflexivity.
Qed.

(** C4: [retest] returns an error exactly when the configured test command
    cannot be started or exits with a status that is not 0.  When the
    goroutine of [do] runs such a retest, the error is logged once, at
    error level with the message given to [do], and goes no further: the
    goroutine ends normally, the process does not panic, [watch] is still
    in the state it was in and handles its next reception as it would have
    otherwise.  This holds from the event on: when [watch] takes a change
    that matches the test-file or the template-file pattern of a
    directory whose command fails, it starts [go do(...)] for it; that
    goroutine only starts the goroutine of [do]; and that one writes the
    info record of [retest] and the one error record ["failed to test"],
    after which [watch] is listening, nothing has panicked and the other
    pending goroutines are untouched. *)
Theorem C4_retest_failure_logged_once
        (cfg : Config) (os : exec.OS) (p : Process) (n : nat) (m : string)
        (wdir : Dir) :
  (forall w, returns_error (snd (retest os w wdir)) = true <->
             command_fails os wdir) /\
  (panicked p = None ->
   nth_error (goroutines (world p)) n = Some (GoFunc m (RetestClosure wdir)) ->
   command_fails os wdir ->
   let p' := process_step cfg p (RunGoroutine n os) in
   error_count (world p') = S (error_count (world p)) /\
   (exists err,
       logs (world p') =
       (logs (world p) ++
          [ {| zap.level := zap.InfoLevel;
               zap.message := "retesting directory";
               zap.fields := [zap.String "dir" (Path wdir)] |};
            {| zap.level := zap.ErrorLevel;
               zap.message := m;
               zap.fields :=
                 [zap.Error (Errorf "failed to run test command: " err)] |}
          ])%list) /\
   goroutines (world p') = remove_nth n (goroutines (world p)) /\
   dispatcher p' = dispatcher p /\
   panicked p' = None /\
   (forall r,
       dispatcher p = Listening ->
       process_step cfg p' (Select r) =
       {| world := fst (watch_step cfg (world p') r);
          dispatcher := snd (watch_step cfg (world p') r);
          panicked := None |})) /\
  (forall (os1 : exec.OS) (ev : fsnotify.Event) (before after : list Dir),
      panicked p = None ->
      dispatcher p = Listening ->
      fsnotify.Op ev <> fsnotify.Chmod ->
      Dirs cfg = (before ++ wdir :: after)%list ->
      fst (glob wdir (TestFilePattern wdir) (fsnotify.Name ev))
      || fst (glob wdir (TemplateFilePattern wdir) (fsnotify.Name ev))
      = true ->
      command_fails os wdir ->
      let A := (goroutines (world p)
                  ++ flat_map (watch_dir (fsnotify.Name ev)) before)%list in
      let B := flat_map (watch_dir (fsnotify.Name ev)) after in
      let p1 := process_step cfg p (Select (EventRecv ev)) in
      let p2 := process_step cfg p1 (RunGoroutine (List.length A) os1) in
      let p3 := process_step cfg p2 (RunGoroutine (List.length (A ++ B)) os) in
      nth_error (goroutines (world p1)) (List.length A) =
        Some (GoDo "failed to test" (RetestClosure wdir)) /\
      error_count (world p1) = error_count (world p) /\
      nth_error (goroutines (world p2)) (List.length (A ++ B)) =
        Some (GoFunc "failed to test" (RetestClosure wdir)) /\
      logs (world p2) = logs (world p1) /\
      error_count (world p3) = S (error_count (world p)) /\
      (exists err,
          logs (world p3) =
          (logs (world p)
             ++ [ {| zap.level := zap.DebugLevel;
                     zap.message := "fsnotify event";
                     zap.fields := [zap.Any "ev" ev] |};
                  {| zap.level := zap.InfoLevel;
                     zap.message := "retesting directory";
                     zap.fields := [zap.String "dir" (Path wdir)] |};
                  {| zap.level := zap.ErrorLevel;
                     zap.message := "failed to test";
                     zap.fields :=
                       [zap.Error
                          (Errorf "failed to run test command: " err)] |}
                ])%list) /\
      goroutines (world p3) = (A ++ B)%list /\
      dispatcher p3 = Listening /\
      panicked p3 = None /\
      (forall r,
          process_step cfg p3 (Select r) =
          {| world := fst (watch_step cfg (world p3) r);
             dispatcher := snd (watch_step cfg (world p3) r);
             panicked := None |})).
Proof.
  split; [intros w; apply retest_error_iff|]. split.
  { intros Hp Hnth Hfail p'.
    destruct (do_func_retest_fails
                os {| logs := logs (world p); refreshes := refreshes (world p);
                      goroutines := remove_nth n (goroutines (world p)) |}
                m wdir Hfail) as [err Herr].
    assert (Hp' : p' = {| world := fst (do_func os
                            {| logs := logs (world p);
                               refreshes := refreshes (world p);
                               goroutines :=
                                 remove_nth n (goroutines (world p)) |}
                            m (RetestClosure wdir));
                          dispatcher := dispatcher p;
                          panicked := None |}).
    { unfold p', process_step. rewrite Hp, Hnth. cbn [run_goroutine].
      rewrite Herr. reflexivity. }
    clearbody p'. subst p'. rewrite Herr.
    cbn [world dispatcher panicked fst].
    split; [|split; [|split; [|split; [|split]]]].
    - rewrite !error_count_log. unfold error_count; cbn [logs]. lia.
    - exists err. cbn [logs log]. rewrite <- app_assoc. reflexivity.
    - reflexivity.
    - reflexivity.
    - reflexivity.
    - intros r Hd. unfold process_step. cbn [panicked dispatcher world].
      rewrite Hd.
      destruct (watch_step cfg _ r) as [w' st]. reflexivity. }
  intros os1 ev before after Hp Hd Hop Hdirs Hm Hfail A B p1 p2 p3.
  destruct (dispatched_retest_fails cfg os1 os p ev wdir before after
                                    Hp Hd Hop Hdirs Hm Hfail)
    as (H1 & H2 & err & H3).
  fold A B in H1, H2, H3. fold p1 in H1. fold p1 p2 in H2.
  fold p1 p2 p3 in H3.
  clearbody p1 p2 p3. subst p1 p2 p3.
  cbn [world goroutines logs dispatcher panicked].
  split; [apply nth_error_middle|].
  split.
  { unfold error_count. cbn [logs]. rewrite filter_app, length_app.
    cbn. lia. }
  split; [apply nth_error_snoc|].
  split; [reflexivity|].
  split.
  { unfold error_count. cbn [logs]. rewrite filter_app, length_app.
    cbn. lia. }
  split; [exists err; reflexivity|].
  split; [reflexivity|]. split; [reflexivity|]. split; [reflexivity|].
  intros r. unfold process_step. cbn [panicked dispatcher world].
  destruct (watch_step cfg _ r) as [w' st]. reflexivity.
Qed.

Lemma C4_retest_failure_logged_once_witness :
  command_fails failing_os proj /\
  error_count
    (world
       (process_step proj_cfg
          (process_step proj_cfg
             (process_step proj_cfg proj_listening
                (Select (EventRecv (change "/proj/foo_test.go"
                                           fsnotify.Write))))
             (RunGoroutine 0 succeeding_os))
          (RunGoroutine 0 failing_os))) = 1.
Proof.
  assert (H : command_fails failing_os proj) by (cbv; discriminate).
  assert (Hop : fsnotify.Write <> fsnotify.Chmod) by discriminate.
  split; [exact H|].
  exact (proj1 (proj2 (proj2 (proj2 (proj2
           (proj2 (proj2 (C4_retest_failure_logged_once
                            proj_cfg failing_os proj_listening 0
                            "failed to test" proj))
                  succeeding_os (change "/proj/foo_test.go" fsnotify.Write)
                  [] [] eq_refl eq_refl Hop eq_refl eq_refl H)))))).
Defined.

(** * What [filepath.Match] matches *)















(** ** Separators in what is matched *)






(** ** Joining the path of a directory and a pattern *)





